(** * null-receipts: the receipt extraction pipeline

    A shallow embedding of [internal/server] (the gRPC handlers
    [ParseReceipt] and [Health], the response decoder [parseResponse],
    the fence stripper [extractJSON] and the scorer [calcConfidence]),
    of the provider switch of [cmd/server/main.go] and of the validation
    helper of [cmd/test-cli/main.go], together with the properties the
    specification states about them.

    Conventions.
    - A Go [string] / [[]byte] is a list of bytes ([list ascii]).
    - [float32] and [float64] are IEEE 754 binary32 / binary64 values,
      computed with the Standard Library's [SpecFloat] operations
      (round to nearest, ties to even), the arithmetic Go uses.
    - Library calls the source makes ([regexp], [strings],
      [encoding/json], [context]) are modelled from their documented
      behaviour; generated protobuf types are records with the fields
      the source reads and writes. *)

From Stdlib Require Import Ascii String.
From Stdlib Require Import ZArith List Bool Lia DecimalString.
From Stdlib Require QArith Qabs.
From Stdlib Require Import Floats.SpecFloat.
Import ListNotations.

Set Implicit Arguments.
Set Warnings "-register-all".

(* ------------------------------------------------------------------ *)
(** * Go strings as byte sequences *)

Module GoString.

Definition bytes := list ascii.

(** A string literal of the source. *)
Definition B (s : string) : bytes := list_ascii_of_string s.
Arguments B s%_string.

Definition byte (n : nat) : ascii := ascii_of_nat n.

(** JSON texts are written with ['] standing for the double quote. *)
Definition DQ : ascii := byte 34.
Definition J (s : string) : bytes :=
  map (fun c => if Ascii.eqb c "'" then DQ else c) (B s).
Arguments J s%_string.

Definition TAB : ascii := byte 9.
Definition LF  : ascii := byte 10.
Definition VT  : ascii := byte 11.
Definition FF  : ascii := byte 12.
Definition CR  : ascii := byte 13.
Definition SP  : ascii := byte 32.

Fixpoint beq (a b : bytes) : bool :=
  match a, b with
  | [], [] => true
  | x :: a', y :: b' => Ascii.eqb x y && beq a' b'
  | _, _ => false
  end.

(** [strings.HasPrefix(s, p)]. *)
Fixpoint HasPrefix (p s : bytes) : bool :=
  match p with
  | [] => true
  | x :: p' =>
      match s with
      | [] => false
      | y :: s' => Ascii.eqb x y && HasPrefix p' s'
      end
  end.

Fixpoint countWhile (f : ascii -> bool) (s : bytes) : nat :=
  match s with
  | [] => 0
  | c :: r => if f c then S (countWhile f r) else 0
  end.

(** Replacement of every leftmost, non-overlapping match by [new].
    [matchAt s] is the length of the match that starts at the head of [s]
    (0: no match there).  [skip] bytes of a match found earlier are still
    to be dropped.  This is the loop shared by [Regexp.ReplaceAllString]
    and [strings.ReplaceAll] for patterns that never match the empty
    string. *)
Fixpoint replaceLoop (matchAt : bytes -> nat) (new : bytes)
         (skip : nat) (s : bytes) : bytes :=
  match s with
  | [] => []
  | c :: r =>
      match skip with
      | S k => replaceLoop matchAt new k r
      | O =>
          match matchAt s with
          | O => c :: replaceLoop matchAt new 0 r
          | S k => new ++ replaceLoop matchAt new k r
          end
      end
  end.

(** [strings.ReplaceAll(s, old, new)] for a non-empty [old]. *)
Definition ReplaceAll (s old new : bytes) : bytes :=
  replaceLoop (fun t => if HasPrefix old t then length old else 0) new 0 s.

Definition code (c : ascii) : N := N_of_ascii c.
Definition ofCode (n : N) : ascii := ascii_of_N n.
Definition inRange (lo hi : N) (c : ascii) : bool :=
  (lo <=? code c)%N && (code c <=? hi)%N.

(** ** UTF-8, as package [unicode/utf8] decodes and encodes it *)

Definition isCont (c : ascii) : bool := inRange 128 191 c.

(** Width of the well-formed encoding at the head of [s]; 0 when the
    bytes there are ill-formed ([utf8.DecodeRune] then answers
    [RuneError] with width 1). *)
Definition runeWidth (s : bytes) : nat :=
  match s with
  | [] => 0
  | b0 :: r =>
      let c := code b0 in
      if (c <? 128)%N then 1
      else if inRange 194 223 b0 then
        match r with
        | b1 :: _ => if isCont b1 then 2 else 0
        | _ => 0
        end
      else if inRange 224 239 b0 then
        match r with
        | b1 :: b2 :: _ =>
            let lo := if (c =? 224)%N then 160%N else 128%N in
            let hi := if (c =? 237)%N then 159%N else 191%N in
            if inRange lo hi b1 && isCont b2 then 3 else 0
        | _ => 0
        end
      else if inRange 240 244 b0 then
        match r with
        | b1 :: b2 :: b3 :: _ =>
            let lo := if (c =? 240)%N then 144%N else 128%N in
            let hi := if (c =? 244)%N then 143%N else 191%N in
            if inRange lo hi b1 && isCont b2 && isCont b3 then 4 else 0
        | _ => 0
        end
      else 0
  end.

(** U+FFFD, [unicode.ReplacementChar]. *)
Definition replacement : bytes := [byte 239; byte 191; byte 189].

(** [utf8.AppendRune]. *)
Definition EncodeRune (r : N) : bytes :=
  (if r <? 128 then [ofCode r]
   else if r <? 2048 then
     [ofCode (192 + r / 64); ofCode (128 + r mod 64)]
   else if (55296 <=? r) && (r <? 57344) then replacement
   else if r <? 65536 then
     [ofCode (224 + r / 4096); ofCode (128 + (r / 64) mod 64);
      ofCode (128 + r mod 64)]
   else if r <=? 1114111 then
     [ofCode (240 + r / 262144); ofCode (128 + (r / 4096) mod 64);
      ofCode (128 + (r / 64) mod 64); ofCode (128 + r mod 64)]
   else replacement)%N.

(** The code points [unicode.IsSpace] accepts. *)
Definition spaceCodePoints : list N :=
  [ 9; 10; 11; 12; 13; 32; 133; 160; 5760;
    8192; 8193; 8194; 8195; 8196; 8197; 8198; 8199; 8200; 8201; 8202;
    8232; 8233; 8239; 8287; 12288 ]%N.

(** Their encodings: a white-space rune stands at the head of a string
    exactly when its encoding is a prefix of the string. *)
Definition spaceRunes : list bytes := map EncodeRune spaceCodePoints.

(** Length of the first of [pats] that is a prefix of [s]; 0 if none. *)
Fixpoint prefixLen (pats : list bytes) (s : bytes) : nat :=
  match pats with
  | [] => 0
  | p :: ps => if HasPrefix p s then length p else prefixLen ps s
  end.

(** Drops leading occurrences of [pats] ([strings.TrimLeftFunc] when
    [pats] are the encodings of the runes to trim). *)
Fixpoint trimPrefixes (pats : list bytes) (skip : nat) (s : bytes) : bytes :=
  match s with
  | [] => []
  | c :: r =>
      match skip with
      | S k => trimPrefixes pats k r
      | O =>
          match prefixLen pats s with
          | O => s
          | S k => trimPrefixes pats k r
          end
      end
  end.

Definition TrimLeftSpace (s : bytes) : bytes := trimPrefixes spaceRunes 0 s.

(** Trailing white space: the last rune is decoded backwards, which finds
    a white-space rune exactly when its encoding ends the string. *)
Definition TrimRightSpace (s : bytes) : bytes :=
  rev (trimPrefixes (map (@rev ascii) spaceRunes) 0 (rev s)).

(** [strings.TrimSpace]. *)
Definition TrimSpace (s : bytes) : bytes := TrimRightSpace (TrimLeftSpace s).

End GoString.
Export GoString.

(* ------------------------------------------------------------------ *)
(** * Package [regexp], for the syntax the source uses *)

Module regexp.

Inductive Regexp :=
| Literal (s : bytes)              (* the bytes of [s] *)
| Class (f : ascii -> bool)        (* one byte of a class *)
| Concat (a b : Regexp)
| Quest (a : Regexp)               (* [a?], preferring [a] *)
| Star (a : Regexp).               (* [a*], preferring more *)

(** [a*] by [step], the matcher of [a]: another [a] that takes at least
    a byte, then the rest; failing that, the continuation. *)
Fixpoint starLoop (step : bytes -> (bytes -> option bytes) -> option bytes)
         (k : bytes -> option bytes) (fuel : nat) (s : bytes) : option bytes :=
  match fuel with
  | O => k s
  | S fuel' =>
      match step s (fun r => if (length r <? length s)%nat
                             then starLoop step k fuel' r else None) with
      | Some r => Some r
      | None => k s
      end
  end.

(** Leftmost-first matching of [re] at the head of [s], then [k] on what
    is left: the first alternative that leads to a match is the match. *)
Fixpoint matchHere (re : Regexp) (s : bytes) (k : bytes -> option bytes)
  : option bytes :=
  match re with
  | Literal p => if HasPrefix p s then k (skipn (length p) s) else None
  | Class f =>
      match s with
      | c :: r => if f c then k r else None
      | [] => None
      end
  | Concat a b => matchHere a s (fun r => matchHere b r k)
  | Quest a =>
      match matchHere a s k with
      | Some r => Some r
      | None => k s
      end
  | Star a => starLoop (matchHere a) k (length s) s
  end.

(** The length of the match at the head of [s]; 0 when there is none. *)
Definition matchAt (re : Regexp) (s : bytes) : nat :=
  match matchHere re s (fun r => Some r) with
  | Some r => length s - length r
  | None => 0
  end.

(** [re.ReplaceAllString(src, repl)], for an [re] that does not match
    the empty string and a [repl] without [$]. *)
Definition ReplaceAllString (re : Regexp) (src repl : bytes) : bytes :=
  replaceLoop (matchAt re) repl 0 src.

End regexp.

(* ------------------------------------------------------------------ *)
(** * [extractJSON] *)

Module ResponseExtractor.

Import regexp.

(** The character class [\s] of Go's regexp syntax: [[\t\n\f\r ]]. *)
Definition reSpace (c : ascii) : bool :=
  Ascii.eqb c TAB || Ascii.eqb c LF || Ascii.eqb c FF || Ascii.eqb c CR
  || Ascii.eqb c SP.

Definition fence : bytes := B "```".

(** [var codeBlockRe = regexp.MustCompile("```(?:json)?\\s*")] *)
Definition codeBlockRe : Regexp :=
  Concat (Literal fence) (Concat (Quest (Literal (B "json"))) (Star (Class reSpace))).

Definition extractJSON (s : bytes) : bytes :=
  let s := ReplaceAllString codeBlockRe s [] in
  let s := ReplaceAll s fence [] in
  TrimSpace s.

(** The same match in closed form: the fence, ["json"] when it is there,
    and every [\s] byte that follows. *)
Definition fenceJson : bytes := B "```json".

Definition fenceLen (s : bytes) : nat :=
  if HasPrefix fenceJson s then 7 + countWhile reSpace (skipn 7 s)
  else if HasPrefix fence s then 3 + countWhile reSpace (skipn 3 s)
  else 0.

End ResponseExtractor.
Export ResponseExtractor.

(* ------------------------------------------------------------------ *)
(** * Floating point *)

Module Float.

(** Values are kept in the canonical form [SpecFloat.valid_binary]
    describes; every operation below returns such a value. *)
Definition float64 := spec_float.
Definition float32 := spec_float.

Definition prec64 : Z := 53.
Definition emax64 : Z := 1024.
Definition prec32 : Z := 24.
Definition emax32 : Z := 128.

(** The correctly rounded value of the fraction [n / d] ([d > 0]), the
    conversion Go applies to a decimal constant or literal. *)
Definition ofRatio (prec emax : Z) (neg : bool) (n : N) (d : positive) : spec_float :=
  match n with
  | N0 => S754_zero neg
  | Npos m => SFdiv prec emax (S754_finite neg m 0) (S754_finite false d 0)
  end.

Definition f64 (n : N) (d : positive) : float64 := ofRatio prec64 emax64 false n d.
Definition f32 (n : N) (d : positive) : float32 := ofRatio prec32 emax32 false n d.

Definition add64 : float64 -> float64 -> float64 := SFadd prec64 emax64.
Definition sub64 : float64 -> float64 -> float64 := SFsub prec64 emax64.
Definition mul64 : float64 -> float64 -> float64 := SFmul prec64 emax64.
Definition abs64 : float64 -> float64 := SFabs.
Definition le64 : float64 -> float64 -> bool := SFleb.

Definition add32 : float32 -> float32 -> float32 := SFadd prec32 emax32.
Definition le32 : float32 -> float32 -> bool := SFleb.
Definition gt32 (x y : float32) : bool := SFltb y x.

Definition isFinite (x : spec_float) : bool :=
  match x with
  | S754_zero _ | S754_finite _ _ _ => true
  | _ => false
  end.

End Float.
Export Float.

(* ------------------------------------------------------------------ *)
(** * [encoding/json]: syntax and values *)

Module Json.

Inductive Value :=
| Null
| Bool (b : bool)
| Number (lit : bytes)                      (* the literal as written *)
| Str (s : bytes)                           (* the content, unquoted *)
| Array (elems : list Value)
| Object (members : list (bytes * Value)).  (* in source order *)

Definition ch (c : ascii) (s : string) : bool :=
  match s with
  | String x EmptyString => Ascii.eqb c x
  | _ => false
  end.
Arguments ch c s%_string.
Definition isDigit (c : ascii) : bool := inRange 48 57 c.
Definition isDigit19 (c : ascii) : bool := inRange 49 57 c.
Definition isHex (c : ascii) : bool :=
  isDigit c || inRange 97 102 c || inRange 65 70 c.
Definition hexVal (c : ascii) : N :=
  if isDigit c then code c - 48
  else if inRange 97 102 c then code c - 87
  else code c - 55.

(** The scanner's [isSpace]. *)
Definition isSpace (c : ascii) : bool :=
  Ascii.eqb c SP || Ascii.eqb c TAB || Ascii.eqb c CR || Ascii.eqb c LF.

(** ** String literals *)

(** [getu4]: the code unit of a [\uXXXX] escape at the head of [s]. *)
Definition getu4 (s : bytes) : option N :=
  match s with
  | b :: u :: h1 :: h2 :: h3 :: h4 :: _ =>
      if ch b "\" && ch u "u" && isHex h1 && isHex h2 && isHex h3 && isHex h4
      then Some (((hexVal h1 * 16 + hexVal h2) * 16 + hexVal h3) * 16 + hexVal h4)%N
      else None
  | _ => None
  end.

Definition isSurrogate (r : N) : bool := ((55296 <=? r) && (r <? 57344))%N.

(** [utf16.DecodeRune]: the code point of a surrogate pair, if it is one. *)
Definition decodeSurrogates (r1 r2 : N) : option N :=
  (if (55296 <=? r1) && (r1 <? 56320) && (56320 <=? r2) && (r2 <? 57344)
   then Some ((r1 - 55296) * 1024 + (r2 - 56320) + 65536)
   else None)%N.

Definition escaped (e : ascii) : ascii :=
  if ch e "b" then byte 8
  else if ch e "f" then FF
  else if ch e "n" then LF
  else if ch e "r" then CR
  else if ch e "t" then TAB
  else e.

(** [unquote]: the content of a string literal the scanner accepted.
    [n] bytes that belong to the escape or rune being handled are still
    to be passed over, copied when [keep] is set. *)
Fixpoint unquote (keep : bool) (n : nat) (s : bytes) : bytes :=
  match s with
  | [] => []
  | c :: r =>
      match n with
      | S k => if keep then c :: unquote keep k r else unquote keep k r
      | O =>
          if ch c "\" then
            match r with
            | [] => []
            | e :: _ =>
                if ch e "u" then
                  match getu4 s with
                  | None => []
                  | Some rr =>
                      if isSurrogate rr then
                        match getu4 (skipn 6 s) with
                        | Some rr1 =>
                            match decodeSurrogates rr rr1 with
                            | Some dec => EncodeRune dec ++ unquote false 11 r
                            | None => replacement ++ unquote false 5 r
                            end
                        | None => replacement ++ unquote false 5 r
                        end
                      else EncodeRune rr ++ unquote false 5 r
                  end
                else escaped e :: unquote false 1 r
            end
          else if (code c <? 128)%N then c :: unquote false 0 r
          else
            match runeWidth s with
            | O => replacement ++ unquote false 0 r
            | S w => c :: unquote true w r
            end
      end
  end.

(** ** The scanner *)

(** What the value being read belongs to ([parseArrayValue],
    [parseObjectKey], [parseObjectValue]), with what was read of it. *)
Inductive Frame :=
| FArr (elems : list Value)
| FKey (members : list (bytes * Value)) (key : option bytes)
| FVal (members : list (bytes * Value)) (key : option bytes).

Inductive NumState := sNeg | s1 | s0 | sDot | sDot0 | sE | sESign | sE0.

Inductive Step :=
| BeginValue
| BeginValueOrEmpty
| BeginStringOrEmpty
| BeginString
| EndValue
| EndTop (v : Value)
| InString (raw : bytes)
| InStringEsc (raw : bytes)
| InStringEscU (n : nat) (raw : bytes)
| InNumber (st : NumState) (lit : bytes)
| InLiteral (rest : bytes) (v : Value).

Record Scanner := { stack : list Frame; step : Step }.

Definition maxNestingDepth : Z := 10000.

Definition to (stk : list Frame) (st : Step) : option Scanner :=
  Some {| stack := stk; step := st |}.

Definition pushParseState (f : Frame) (stk : list Frame) (st : Step) : option Scanner :=
  if (Z.of_nat (length (f :: stk)) <=? maxNestingDepth)%Z then to (f :: stk) st
  else None.

(** A complete value goes to the frame it belongs to. *)
Definition deliver (v : Value) (stk : list Frame) : option Scanner :=
  match stk with
  | [] => to [] (EndTop v)
  | FArr es :: r => to (FArr (v :: es) :: r) EndValue
  | FKey ms None :: r =>
      match v with
      | Str k => to (FKey ms (Some k) :: r) EndValue
      | _ => None
      end
  | FVal ms (Some k) :: r => to (FVal ((k, v) :: ms) None :: r) EndValue
  | _ => None
  end.

Definition stateEndTop (v : Value) (c : ascii) : option Scanner :=
  if isSpace c then to [] (EndTop v) else None.

Definition stateEndValue (stk : list Frame) (c : ascii) : option Scanner :=
  match stk with
  | [] => None
  | top :: r =>
      if isSpace c then to stk EndValue
      else
        match top with
        | FKey ms (Some k) =>
            if ch c ":" then to (FVal ms (Some k) :: r) BeginValue else None
        | FVal ms None =>
            if ch c "," then to (FKey ms None :: r) BeginString
            else if ch c "}" then deliver (Object (rev ms)) r
            else None
        | FArr es =>
            if ch c "," then to stk BeginValue
            else if ch c "]" then deliver (Array (rev es)) r
            else None
        | _ => None
        end
  end.

(** The byte that ended a number is read again after the number. *)
Definition afterValue (sc : option Scanner) (c : ascii) : option Scanner :=
  match sc with
  | None => None
  | Some sc =>
      match step sc with
      | EndTop v => stateEndTop v c
      | _ => stateEndValue (stack sc) c
      end
  end.

Definition stateBeginValue (stk : list Frame) (st : Step) (c : ascii) : option Scanner :=
  if isSpace c then to stk st
  else if ch c "{" then pushParseState (FKey [] None) stk BeginStringOrEmpty
  else if ch c "[" then pushParseState (FArr []) stk BeginValueOrEmpty
  else if Ascii.eqb c DQ then to stk (InString [])
  else if ch c "-" then to stk (InNumber sNeg [c])
  else if ch c "0" then to stk (InNumber s0 [c])
  else if ch c "t" then to stk (InLiteral (B "rue") (Bool true))
  else if ch c "f" then to stk (InLiteral (B "alse") (Bool false))
  else if ch c "n" then to stk (InLiteral (B "ull") Null)
  else if isDigit19 c then to stk (InNumber s1 [c])
  else None.

Definition stateNumber (stk : list Frame) (st : NumState) (lit : bytes) (c : ascii)
  : option Scanner :=
  let next st' := to stk (InNumber st' (c :: lit)) in
  let done := afterValue (deliver (Number (rev lit)) stk) c in
  let state0 :=
    if ch c "." then next sDot
    else if ch c "e" || ch c "E" then next sE
    else done in
  let stateESign := if isDigit c then next sE0 else None in
  match st with
  | sNeg => if ch c "0" then next s0 else if isDigit19 c then next s1 else None
  | s1 => if isDigit c then next s1 else state0
  | s0 => state0
  | sDot => if isDigit c then next sDot0 else None
  | sDot0 =>
      if isDigit c then next sDot0
      else if ch c "e" || ch c "E" then next sE
      else done
  | sE => if ch c "+" || ch c "-" then next sESign else stateESign
  | sESign => stateESign
  | sE0 => if isDigit c then next sE0 else done
  end.

(** One byte through the scanner; [None] is [scanError]. *)
Definition stepByte (sc : Scanner) (c : ascii) : option Scanner :=
  let stk := stack sc in
  match step sc with
  | BeginValue => stateBeginValue stk BeginValue c
  | BeginValueOrEmpty =>
      if isSpace c then to stk BeginValueOrEmpty
      else if ch c "]" then stateEndValue stk c
      else stateBeginValue stk BeginValue c
  | BeginStringOrEmpty =>
      if isSpace c then to stk BeginStringOrEmpty
      else if ch c "}" then
        match stk with
        | FKey ms None :: r => stateEndValue (FVal ms None :: r) c
        | _ => None
        end
      else if Ascii.eqb c DQ then to stk (InString [])
      else None
  | BeginString =>
      if isSpace c then to stk BeginString
      else if Ascii.eqb c DQ then to stk (InString [])
      else None
  | EndValue => stateEndValue stk c
  | EndTop v => stateEndTop v c
  | InString raw =>
      if Ascii.eqb c DQ then deliver (Str (unquote false 0 (rev raw))) stk
      else if ch c "\" then to stk (InStringEsc (c :: raw))
      else if (code c <? 32)%N then None
      else to stk (InString (c :: raw))
  | InStringEsc raw =>
      if ch c "b" || ch c "f" || ch c "n" || ch c "r" || ch c "t"
         || ch c "\" || ch c "/" || Ascii.eqb c DQ
      then to stk (InString (c :: raw))
      else if ch c "u" then to stk (InStringEscU 0 (c :: raw))
      else None
  | InStringEscU n raw =>
      if isHex c then
        match n with
        | 3 => to stk (InString (c :: raw))
        | _ => to stk (InStringEscU (S n) (c :: raw))
        end
      else None
  | InNumber st lit => stateNumber stk st lit c
  | InLiteral rest v =>
      match rest with
      | [] => None
      | x :: rest' =>
          if Ascii.eqb c x then
            match rest' with
            | [] => deliver v stk
            | _ => to stk (InLiteral rest' v)
            end
          else None
      end
  end.

Fixpoint scan (sc : Scanner) (data : bytes) : option Scanner :=
  match data with
  | [] => Some sc
  | c :: r =>
      match stepByte sc c with
      | Some sc' => scan sc' r
      | None => None
      end
  end.

(** [checkValid] and the value the text denotes: the scanner runs over
    the whole text, then sees one more space ([scanner.eof]). *)
Definition parse (data : bytes) : option Value :=
  match scan {| stack := []; step := BeginValue |} data with
  | None => None
  | Some sc =>
      match stepByte sc SP with
      | Some sc' =>
          match step sc' with
          | EndTop v => Some v
          | _ => None
          end
      | None => None
      end
  end.

(** ** Numbers: [strconv.ParseFloat(lit, 64)] on a literal of the grammar *)

Fixpoint takeWhile (f : ascii -> bool) (s : bytes) : bytes :=
  match s with
  | c :: r => if f c then c :: takeWhile f r else []
  | [] => []
  end.

Fixpoint dropWhile (f : ascii -> bool) (s : bytes) : bytes :=
  match s with
  | c :: r => if f c then dropWhile f r else s
  | [] => []
  end.

Definition digitsVal (ds : bytes) : N :=
  fold_left (fun acc d => (acc * 10 + (code d - 48))%N) ds 0%N.

(** Sign, decimal mantissa and decimal exponent of a literal. *)
Definition decimalOf (lit : bytes) : bool * N * Z :=
  let neg := match lit with c :: _ => ch c "-" | [] => false end in
  let s := if neg then tl lit else lit in
  let ip := takeWhile isDigit s in
  let s := dropWhile isDigit s in
  let fp := match s with c :: r => if ch c "." then takeWhile isDigit r else [] | [] => [] end in
  let s := match s with c :: r => if ch c "." then dropWhile isDigit r else s | [] => [] end in
  let ex :=
    match s with
    | c :: r =>
        if ch c "e" || ch c "E" then
          match r with
          | sg :: r' =>
              if ch sg "-" then (- Z.of_N (digitsVal r'))%Z
              else if ch sg "+" then Z.of_N (digitsVal r')
              else Z.of_N (digitsVal r)
          | [] => 0%Z
          end
        else 0%Z
    | [] => 0%Z
    end in
  (neg, digitsVal (ip ++ fp), (ex - Z.of_nat (length fp))%Z).

(** The nearest [float64]; [None] is [strconv.ErrRange] (the value
    rounds to an infinity). *)
Definition ParseFloat (lit : bytes) : option float64 :=
  let '(neg, m, e) := decimalOf lit in
  let x :=
    match e with
    | Zneg p => ofRatio prec64 emax64 neg m (10 ^ p)
    | _ => ofRatio prec64 emax64 neg (m * 10 ^ Z.to_N e) 1
    end in
  if isFinite x then Some x else None.

(** ** Field names *)

(** [foldName], as far as it matters for names in ASCII: letters go to
    upper case, and so do the two code points outside ASCII that fold
    to a letter, U+017F (long s) and U+212A (Kelvin sign). *)
Fixpoint foldName (s : bytes) : bytes :=
  match s with
  | [] => []
  | c :: r =>
      if inRange 97 122 c then ofCode (code c - 32) :: foldName r
      else
        match r with
        | c1 :: r1 =>
            if Ascii.eqb c (byte 197) && Ascii.eqb c1 (byte 191) then
              ofCode 83 :: foldName r1
            else
              match r1 with
              | c2 :: r2 =>
                  if Ascii.eqb c (byte 226) && Ascii.eqb c1 (byte 132)
                     && Ascii.eqb c2 (byte 170)
                  then ofCode 75 :: foldName r2
                  else c :: foldName r
              | [] => c :: foldName r
              end
        | [] => c :: foldName r
        end
  end.

(** The field a key selects: the one with that name, else the one whose
    name is the same up to case. *)
Definition fieldOf (A : Type) (fields : list (bytes * A)) (key : bytes) : option A :=
  match find (fun f => beq (fst f) key) fields with
  | Some f => Some (snd f)
  | None =>
      match find (fun f => beq (foldName (fst f)) (foldName key)) fields with
      | Some f => Some (snd f)
      | None => None
      end
  end.

(** ** Errors and stores *)

Inductive Error :=
| SyntaxError
| UnmarshalTypeError (value field : bytes).

Inductive Result (A : Type) :=
| Ok (a : A)
| Err (e : Error).
Arguments Ok {A} a.
Arguments Err {A} e.

Definition kindOf (v : Value) : bytes :=
  match v with
  | Null => B "null"
  | Bool _ => B "bool"
  | Number _ => B "number"
  | Str _ => B "string"
  | Array _ => B "array"
  | Object _ => B "object"
  end.

Definition mismatch (A : Type) (v : Value) (field : bytes) : Result A :=
  Err (UnmarshalTypeError (kindOf v) field).

(** A [string] field: [null] leaves it as it is. *)
Definition storeString (field : bytes) (old : bytes) (v : Value) : Result bytes :=
  match v with
  | Str s => Ok s
  | Null => Ok old
  | _ => mismatch _ v field
  end.

(** A [*string] field: [null] sets it to [nil]. *)
Definition storeStringPtr (field : bytes) (v : Value) : Result (option bytes) :=
  match v with
  | Str s => Ok (Some s)
  | Null => Ok None
  | _ => mismatch _ v field
  end.

(** A [*float64] field. *)
Definition storeFloatPtr (field : bytes) (v : Value) : Result (option float64) :=
  match v with
  | Number lit =>
      match ParseFloat lit with
      | Some x => Ok (Some x)
      | None => Err (UnmarshalTypeError (B "number " ++ lit) field)
      end
  | Null => Ok None
  | _ => mismatch _ v field
  end.

Definition bind (A B : Type) (r : Result A) (k : A -> Result B) : Result B :=
  match r with
  | Ok a => k a
  | Err e => Err e
  end.

(** The elements of an array, each stored by [elem]; the first error wins. *)
Fixpoint storeElems (A : Type) (elem : Value -> Result A) (vs : list Value)
  : Result (list A) :=
  match vs with
  | [] => Ok []
  | v :: r =>
      bind (elem v) (fun a => bind (storeElems elem r) (fun l => Ok (a :: l)))
  end.

(** The members of an object, stored in order into [acc] by [member]. *)
Fixpoint storeMembers (A : Type) (member : A -> bytes -> Value -> Result A)
         (ms : list (bytes * Value)) (acc : A) : Result A :=
  match ms with
  | [] => Ok acc
  | (k, v) :: r => bind (member acc k v) (storeMembers member r)
  end.

Definition errorText (e : Error) : bytes :=
  match e with
  | SyntaxError => B "invalid character or unexpected end of JSON input"
  | UnmarshalTypeError v f =>
      B "json: cannot unmarshal " ++ v ++ B " into Go struct field " ++ f
  end.

End Json.

(* ------------------------------------------------------------------ *)
(** * Generated protobuf messages ([internal/gen/.../v1]) *)

Module pb.

Inductive OCRErrorCode :=
| OCRErrorCode_OCR_ERROR_INVALID_IMAGE
| OCRErrorCode_OCR_ERROR_TIMEOUT
| OCRErrorCode_OCR_ERROR_MODEL_ERROR
| OCRErrorCode_OCR_ERROR_PARSE_FAILED.

Record OCRError := { Code : OCRErrorCode; Message : bytes }.

Record ParsedItem := {
  Raw : bytes;
  Name : option bytes;
  Qty : float64;
  UnitPrice : float64
}.

Record ParsedReceipt := {
  Merchant : option bytes;
  Date : option bytes;
  Currency : option bytes;
  Items : list ParsedItem;
  Subtotal : option float64;
  Tax : option float64;
  Total : option float64;
  Confidence : float32
}.

Record ParseReceiptRequest := { ImageData : bytes; ContentType : bytes }.

Record ParseReceiptResponse := {
  Success : bool;
  Data : option ParsedReceipt;
  Error : option OCRError
}.

Record HealthResponse := { Status : bytes; Model : bytes }.

End pb.

(* ------------------------------------------------------------------ *)
(** * [context] and the two model clients *)

Module context.

Inductive error := Canceled | DeadlineExceeded.

(** What has ended the request's context, if anything, at the moment a
    call made under it returns: nothing, the caller's cancellation, the
    caller's own deadline, or the timeout the handler added. *)
Inductive Ending :=
| Open
| CallerCanceled
| CallerDeadlinePassed
| TimeoutPassed.

(** [ctx.Err()]: a derived context ends with its parent, and reports
    [DeadlineExceeded] when the earlier of the two deadlines passed. *)
Definition Err (e : Ending) : option error :=
  match e with
  | Open => None
  | CallerCanceled => Some Canceled
  | CallerDeadlinePassed | TimeoutPassed => Some DeadlineExceeded
  end.

(** A context as the handler passes it on: the time left until its
    deadline (nanoseconds), if it has one. *)
Record Context := { Left : option Z }.

Definition Background : Context := {| Left := None |}.

(** [context.WithTimeout(parent, d)]: the earlier deadline stands. *)
Definition WithTimeout (parent : Context) (d : Z) : Context :=
  {| Left := Some (match Left parent with
                   | Some l => Z.min l d
                   | None => d
                   end) |}.

End context.

Module time.
Definition Nanosecond : Z := 1.
Definition Second : Z := 1000000000 * Nanosecond.
Definition Minute : Z := 60 * Second.
End time.

(** A Go [error], by its message. *)
Definition error := bytes.

(** [github.com/ollama/ollama/api]: a client is what its server answers. *)
Module api.

Record GenerateRequest := {
  Model : bytes;
  Prompt : bytes;
  Images : list bytes;
  Stream : option bool
}.

Record GenerateResponse := { Response : bytes }.

(** One [Generate] call: the responses handed to the callback, the error
    returned, and how the context stands on return. *)
Record Generated := {
  Responses : list GenerateResponse;
  GenerateErr : option error;
  After : context.Ending
}.

Record Client := {
  Generate : context.Context -> GenerateRequest -> Generated;
  List : context.Context -> option error
}.

End api.

(** [google.golang.org/genai]. *)
Module genai.

Inductive Part :=
| Text (t : bytes)
| InlineData (MIMEType : bytes) (Data : bytes).

(** One [Models.GenerateContent] call: [resp.Text()] or the error, and
    how the context stands on return. *)
Record Generated := {
  Reply : bytes + error;
  After : context.Ending
}.

Record Client := {
  GenerateContent : context.Context -> bytes -> list Part -> Generated
}.

End genai.

(* ------------------------------------------------------------------ *)
(** * Effects of a handler *)

Module Effect.

Inductive Level := InfoLevel | WarnLevel | ErrorLevel.

Inductive LogValue := LogErr (e : error) | LogInt (n : Z).

(** What a handler does to the world, in order. *)
Inductive Event :=
| OllamaGenerate (ctx : context.Context) (req : api.GenerateRequest)
| OllamaList (ctx : context.Context)
| GeminiGenerateContent (ctx : context.Context) (model : bytes) (parts : list genai.Part)
| Log (lvl : Level) (msg : bytes) (key : bytes) (val : LogValue).

(** A handler extends the trace and returns, or panics (a nil pointer
    is dereferenced), which takes the process down. *)
Inductive Outcome (A : Type) :=
| Returns (a : A)
| Panics.
Arguments Returns {A} a.
Arguments Panics {A}.

Definition M (A : Type) : Type := list Event -> Outcome A * list Event.

Definition ret (A : Type) (a : A) : M A := fun tr => (Returns a, tr).

Definition bind (A B : Type) (m : M A) (k : A -> M B) : M B :=
  fun tr =>
    match m tr with
    | (Returns a, tr') => k a tr'
    | (Panics, tr') => (Panics, tr')
    end.

Definition emit (e : Event) : M unit := fun tr => (Returns tt, tr ++ [e]).

Definition panic (A : Type) : M A := fun tr => (Panics, tr).

(** The events of a run started on an empty trace, and its result. *)
Definition run (A : Type) (m : M A) : Outcome A * list Event := m [].

End Effect.
Import Effect.

Declare Scope handler_scope.
Delimit Scope handler_scope with handler.
Notation "x <- c ;; k" := (Effect.bind c (fun x => k))
  (at level 61, c at next level, right associativity) : handler_scope.
Notation "c ;;; k" := (Effect.bind c (fun _ => k))
  (at level 61, right associativity) : handler_scope.

(* ------------------------------------------------------------------ *)
(** * Package [server] *)

Module server.

Import Json.
Local Open Scope handler_scope.

Definition maxImageSize : Z := Z.shiftl 5 20.      (* 5MB *)
Definition timeout : Z := 5 * time.Minute.         (* it can take a while *)

Definition prompt : bytes := J
"Look at this receipt image and extract all information as JSON.

Return ONLY valid JSON in this exact format (no markdown, no backticks, no explanation):
{
  'merchant': 'Store Name',
  'date': 'YYYY-MM-DD',
  'currency': 'CAD',
  'items': [
    {'raw': 'KIRKLAND ORG EGGS 2DZ', 'name': 'Organic Eggs 2 Dozen', 'qty': 1.0, 'unit_price': 8.99}
  ],
  'subtotal': 45.67,
  'tax': 5.94,
  'total': 51.61
}

Rules:
- 'raw' is exactly as printed on receipt
- 'name' is your best guess at the full product name
- 'qty' defaults to 1.0 if not specified
- 'unit_price' is price per unit
- 'currency' is 3-letter ISO code
- 'date' is YYYY-MM-DD if visible, otherwise null
- Use null for values you cannot read
- Skip items with $0.00 price".

Record Logger := { Threshold : Level }.

Record Server := {
  ollama : option api.Client;
  gemini : option genai.Client;
  model : bytes;
  log : Logger
}.

Definition New (ollama : option api.Client) (gemini : option genai.Client)
           (model : bytes) (logger : Logger) : Server :=
  {| ollama := ollama; gemini := gemini; model := model; log := logger |}.

(** ** json types for parsing model output *)

Record itemJSON := {
  Raw : bytes;                    (* json:"raw" *)
  Name : bytes;                   (* json:"name" *)
  Qty : option float64;           (* json:"qty" *)
  UnitPrice : option float64      (* json:"unit_price" *)
}.

Record parsedJSON := {
  Merchant : bytes;               (* json:"merchant" *)
  Date : option bytes;            (* json:"date" *)
  Currency : bytes;               (* json:"currency" *)
  Items : list itemJSON;          (* json:"items" *)
  Subtotal : option float64;      (* json:"subtotal" *)
  Tax : option float64;           (* json:"tax" *)
  Total : option float64          (* json:"total" *)
}.

Inductive itemField := fRaw | fName | fQty | fUnitPrice.

Definition itemFields : list (bytes * itemField) :=
  [ (B "raw", fRaw); (B "name", fName); (B "qty", fQty);
    (B "unit_price", fUnitPrice) ].

Inductive parsedField :=
| fMerchant | fDate | fCurrency | fItems | fSubtotal | fTax | fTotal.

Definition parsedFields : list (bytes * parsedField) :=
  [ (B "merchant", fMerchant); (B "date", fDate); (B "currency", fCurrency);
    (B "items", fItems); (B "subtotal", fSubtotal); (B "tax", fTax);
    (B "total", fTotal) ].

Definition zeroItem : itemJSON :=
  {| Raw := []; Name := []; Qty := None; UnitPrice := None |}.

Definition zeroParsed : parsedJSON :=
  {| Merchant := []; Date := None; Currency := []; Items := [];
     Subtotal := None; Tax := None; Total := None |}.

(** One member of an item object: a known key stores into its field, an
    unknown one is skipped. *)
Definition itemMember (it : itemJSON) (key : bytes) (v : Value) : Result itemJSON :=
  match fieldOf itemFields key with
  | None => Ok it
  | Some fRaw =>
      Json.bind (storeString (B "raw") (Raw it) v) (fun x =>
      Ok {| Raw := x; Name := Name it; Qty := Qty it; UnitPrice := UnitPrice it |})
  | Some fName =>
      Json.bind (storeString (B "name") (Name it) v) (fun x =>
      Ok {| Raw := Raw it; Name := x; Qty := Qty it; UnitPrice := UnitPrice it |})
  | Some fQty =>
      Json.bind (storeFloatPtr (B "qty") v) (fun x =>
      Ok {| Raw := Raw it; Name := Name it; Qty := x; UnitPrice := UnitPrice it |})
  | Some fUnitPrice =>
      Json.bind (storeFloatPtr (B "unit_price") v) (fun x =>
      Ok {| Raw := Raw it; Name := Name it; Qty := Qty it; UnitPrice := x |})
  end.

(** An element of ["items"], stored into a fresh [itemJSON]. *)
Definition storeItem (v : Value) : Result itemJSON :=
  match v with
  | Object ms => storeMembers itemMember ms zeroItem
  | Null => Ok zeroItem
  | _ => mismatch _ v (B "items")
  end.

(** The [[]itemJSON] field: an array resets the slice and appends its
    elements, [null] sets it to [nil]. *)
Definition storeItems (v : Value) : Result (list itemJSON) :=
  match v with
  | Array es => storeElems storeItem es
  | Null => Ok []
  | _ => mismatch _ v (B "items")
  end.

Definition parsedMember (p : parsedJSON) (key : bytes) (v : Value) : Result parsedJSON :=
  match fieldOf parsedFields key with
  | None => Ok p
  | Some fMerchant =>
      Json.bind (storeString (B "merchant") (Merchant p) v) (fun x =>
      Ok {| Merchant := x; Date := Date p; Currency := Currency p; Items := Items p;
            Subtotal := Subtotal p; Tax := Tax p; Total := Total p |})
  | Some fDate =>
      Json.bind (storeStringPtr (B "date") v) (fun x =>
      Ok {| Merchant := Merchant p; Date := x; Currency := Currency p; Items := Items p;
            Subtotal := Subtotal p; Tax := Tax p; Total := Total p |})
  | Some fCurrency =>
      Json.bind (storeString (B "currency") (Currency p) v) (fun x =>
      Ok {| Merchant := Merchant p; Date := Date p; Currency := x; Items := Items p;
            Subtotal := Subtotal p; Tax := Tax p; Total := Total p |})
  | Some fItems =>
      Json.bind (storeItems v) (fun x =>
      Ok {| Merchant := Merchant p; Date := Date p; Currency := Currency p; Items := x;
            Subtotal := Subtotal p; Tax := Tax p; Total := Total p |})
  | Some fSubtotal =>
      Json.bind (storeFloatPtr (B "subtotal") v) (fun x =>
      Ok {| Merchant := Merchant p; Date := Date p; Currency := Currency p; Items := Items p;
            Subtotal := x; Tax := Tax p; Total := Total p |})
  | Some fTax =>
      Json.bind (storeFloatPtr (B "tax") v) (fun x =>
      Ok {| Merchant := Merchant p; Date := Date p; Currency := Currency p; Items := Items p;
            Subtotal := Subtotal p; Tax := x; Total := Total p |})
  | Some fTotal =>
      Json.bind (storeFloatPtr (B "total") v) (fun x =>
      Ok {| Merchant := Merchant p; Date := Date p; Currency := Currency p; Items := Items p;
            Subtotal := Subtotal p; Tax := Tax p; Total := x |})
  end.

(** A value stored into a zero [parsedJSON]. *)
Definition storeParsed (v : Value) : Result parsedJSON :=
  match v with
  | Object ms => storeMembers parsedMember ms zeroParsed
  | Null => Ok zeroParsed
  | _ => mismatch _ v (B "parsedJSON")
  end.

(** [json.Unmarshal([]byte(jsonStr), &p)] with [var p parsedJSON]: the
    text is checked first, then stored. *)
Definition Unmarshal (data : bytes) : Result parsedJSON :=
  match parse data with
  | None => Err SyntaxError
  | Some v => storeParsed v
  end.

(** ** The decoder *)

(** The body of the loop over [p.Items].  Each iteration has an [item]
    of its own (the loop variables of Go 1.22, the release [cmp.Or]
    came with), so [&item.Name] is this item's name. *)
Definition pbItemOf (item : itemJSON) : pb.ParsedItem :=
  let pbItem :=
    {| pb.Raw := Raw item; pb.Name := None;
       pb.Qty := S754_zero false; pb.UnitPrice := S754_zero false |} in
  let pbItem :=
    if negb (beq (Name item) []) then
      {| pb.Raw := pb.Raw pbItem; pb.Name := Some (Name item);
         pb.Qty := pb.Qty pbItem; pb.UnitPrice := pb.UnitPrice pbItem |}
    else pbItem in
  let pbItem :=
    match Qty item with
    | Some q =>
        {| pb.Raw := pb.Raw pbItem; pb.Name := pb.Name pbItem;
           pb.Qty := q; pb.UnitPrice := pb.UnitPrice pbItem |}
    | None =>
        {| pb.Raw := pb.Raw pbItem; pb.Name := pb.Name pbItem;
           pb.Qty := f64 1 1; pb.UnitPrice := pb.UnitPrice pbItem |}
    end in
  match UnitPrice item with
  | Some u =>
      {| pb.Raw := pb.Raw pbItem; pb.Name := pb.Name pbItem;
         pb.Qty := pb.Qty pbItem; pb.UnitPrice := u |}
  | None => pbItem
  end.

(** The receipt built from a decoded [p]. *)
Definition receiptOf (p : parsedJSON) : pb.ParsedReceipt :=
  {| pb.Merchant := if negb (beq (Merchant p) []) then Some (Merchant p) else None;
     pb.Date := match Date p with Some d => Some d | None => None end;
     pb.Currency := if negb (beq (Currency p) []) then Some (Currency p) else None;
     pb.Items := fold_left (fun items item => items ++ [pbItemOf item]) (Items p) [];
     pb.Subtotal := match Subtotal p with Some x => Some x | None => None end;
     pb.Tax := match Tax p with Some x => Some x | None => None end;
     pb.Total := match Total p with Some x => Some x | None => None end;
     pb.Confidence := S754_zero false |}.

Definition parseResponse (raw : bytes) : option pb.ParsedReceipt * option error :=
  let jsonStr := extractJSON raw in
  match Unmarshal jsonStr with
  | Err err => (None, Some (B "invalid JSON: " ++ errorText err))
  | Ok p => (Some (receiptOf p), None)
  end.

(** ** The scorer *)

(** [score] is a [float32] and the constants are converted to it; [sum]
    is a [float64], each product rounded before it is added. *)
Definition calcConfidence (r : pb.ParsedReceipt) : float32 :=
  let score := f32 5 10 in
  let score := match pb.Merchant r with Some _ => add32 score (f32 1 10) | None => score end in
  let score := match pb.Date r with Some _ => add32 score (f32 1 10) | None => score end in
  let score := match pb.Total r with Some _ => add32 score (f32 1 10) | None => score end in
  let score := if (0 <? length (pb.Items r))%nat then add32 score (f32 1 10) else score in
  (* bonus if items sum approximately equals subtotal *)
  let score :=
    match pb.Subtotal r with
    | Some subtotal =>
        if (0 <? length (pb.Items r))%nat then
          let sum :=
            fold_left
              (fun sum item => add64 sum (mul64 (pb.Qty item) (pb.UnitPrice item)))
              (pb.Items r) (S754_zero false) in
          let diff := abs64 (sub64 sum subtotal) in
          let withinTolerance := le64 diff (mul64 subtotal (f64 5 100)) in
          if withinTolerance then add32 score (f32 1 10) else score
        else score
    | None => score
    end in
  if gt32 score (f32 1 1) then f32 1 1 else score.

Definition errorResponse (code : pb.OCRErrorCode) (msg : bytes) : pb.ParseReceiptResponse :=
  {| pb.Success := false;
     pb.Data := None;
     pb.Error := Some {| pb.Code := code; pb.Message := msg |} |}.

Definition ptrOr (T : Type) (p : option T) (fallback : T) : T :=
  match p with
  | Some x => x
  | None => fallback
  end.

(** ** The model call *)

(** A call's result, its error, and how [ctx] stands when it returns. *)
Definition Called : Type := bytes * option error * context.Ending.

Definition callOllama (s : Server) (ctx : context.Context) (imageData : bytes) : M Called :=
  let stream := false in
  let req :=
    {| api.Model := model s; api.Prompt := prompt;
       api.Images := [imageData]; api.Stream := Some stream |} in
  match ollama s with
  | None => panic _
  | Some client =>
      emit (OllamaGenerate ctx req) ;;;
      let g := api.Generate client ctx req in
      (* the callback keeps the last response *)
      let result :=
        fold_left (fun _ resp => api.Response resp) (api.Responses g) [] in
      match api.GenerateErr g with
      | Some err => ret ([], Some (B "ollama: " ++ err), api.After g)
      | None => ret (result, None, api.After g)
      end
  end.

Definition callGemini (s : Server) (ctx : context.Context) (imageData contentType : bytes)
  : M Called :=
  let parts := [genai.Text prompt; genai.InlineData contentType imageData] in
  match gemini s with
  | None => panic _
  | Some client =>
      emit (GeminiGenerateContent ctx (model s) parts) ;;;
      let g := genai.GenerateContent client ctx (model s) parts in
      match genai.Reply g with
      | inr err => ret ([], Some (B "gemini: " ++ err), genai.After g)
      | inl text => ret (text, None, genai.After g)
      end
  end.

Definition callModel (s : Server) (ctx : context.Context) (imageData contentType : bytes)
  : M Called :=
  match gemini s with
  | Some _ => callGemini s ctx imageData contentType
  | None => callOllama s ctx imageData
  end.

(** [cmp.Or(a, b)] on strings: the first that is not empty. *)
Definition cmpOr (a b : bytes) : bytes :=
  match a with
  | [] => b
  | _ => a
  end.

(** ** The handlers *)

Definition ParseReceipt (s : Server) (ctx : context.Context) (req : pb.ParseReceiptRequest)
  : M (option pb.ParseReceiptResponse * option error) :=
  let imageSize := Z.of_nat (length (pb.ImageData req)) in
  if (imageSize =? 0)%Z then
    ret (Some (errorResponse pb.OCRErrorCode_OCR_ERROR_INVALID_IMAGE (B "empty image")), None)
  else if (imageSize >? maxImageSize)%Z then
    ret (Some (errorResponse pb.OCRErrorCode_OCR_ERROR_INVALID_IMAGE
                 (B "image exceeds 5MB limit")), None)
  else
    let ctx := context.WithTimeout ctx timeout in
    let contentType := cmpOr (pb.ContentType req) (B "image/jpeg") in
    called <- callModel s ctx (pb.ImageData req) contentType ;;
    let '(raw, err, after) := called in
    match err with
    | Some err =>
        emit (Log ErrorLevel (B "model call failed") (B "err") (LogErr err)) ;;;
        match context.Err after with
        | Some context.DeadlineExceeded =>
            ret (Some (errorResponse pb.OCRErrorCode_OCR_ERROR_TIMEOUT
                         (B "inference timeout")), None)
        | _ =>
            ret (Some (errorResponse pb.OCRErrorCode_OCR_ERROR_MODEL_ERROR err), None)
        end
    | None =>
        match parseResponse raw with
        | (_, Some err) =>
            emit (Log WarnLevel (B "parse failed") (B "err") (LogErr err)) ;;;
            ret (Some (errorResponse pb.OCRErrorCode_OCR_ERROR_PARSE_FAILED err), None)
        | (None, None) => panic _
        | (Some receipt, None) =>
            let receipt :=
              {| pb.Merchant := pb.Merchant receipt; pb.Date := pb.Date receipt;
                 pb.Currency := pb.Currency receipt; pb.Items := pb.Items receipt;
                 pb.Subtotal := pb.Subtotal receipt; pb.Tax := pb.Tax receipt;
                 pb.Total := pb.Total receipt;
                 pb.Confidence := calcConfidence receipt |} in
            emit (Log InfoLevel (B "parsed receipt") (B "items")
                    (LogInt (Z.of_nat (length (pb.Items receipt))))) ;;;
            ret (Some {| pb.Success := true; pb.Data := Some receipt; pb.Error := None |},
                 None)
        end
    end.

Definition Health (s : Server) (ctx : context.Context) : M (option pb.HealthResponse * option error) :=
  match ollama s with
  | Some client =>
      let ctx := context.WithTimeout ctx (5 * time.Second) in
      emit (OllamaList ctx) ;;;
      match api.List client ctx with
      | Some err =>
          emit (Log WarnLevel (B "ollama health check failed") (B "err") (LogErr err)) ;;;
          ret (Some {| pb.Status := B "unhealthy"; pb.Model := model s |}, None)
      | None => ret (Some {| pb.Status := B "ok"; pb.Model := model s |}, None)
      end
  | None => ret (Some {| pb.Status := B "ok"; pb.Model := model s |}, None)
  end.

End server.

(* ------------------------------------------------------------------ *)
(** * Package [config] and the provider switch of [main] *)

Module config.

Record Config := {
  ListenAddress : bytes;
  LogLevel : Level;
  LogFormat : bytes;      (* "json" | "text" *)
  Provider : bytes;       (* "ollama" | "gemini" *)
  OllamaModel : bytes;
  GeminiAPIKey : bytes;
  GeminiModel : bytes
}.

End config.

Module main.

(** The service [main] registers, given the clients it has created. *)
Definition ocrService (cfg : config.Config) (logger : server.Logger)
           (ollamaClient : api.Client) (geminiClient : genai.Client) : server.Server :=
  if beq (config.Provider cfg) (B "gemini") then
    server.New None (Some geminiClient) (config.GeminiModel cfg) logger
  else
    server.New (Some ollamaClient) None (config.OllamaModel cfg) logger.

End main.

(* ------------------------------------------------------------------ *)
(** * The validation helper of [cmd/test-cli] *)

Module testcli.

Record Item := {
  Raw : bytes;
  Name : bytes;
  Qty : option float64;
  UnitPrice : option float64
}.

Record Receipt := {
  Merchant : bytes;
  Date : option bytes;
  Currency : bytes;
  Items : list Item;
  Subtotal : option float64;
  Tax : option float64;
  Total : option float64;
  Confidence : option float64
}.

(** [%d] of a slice index. *)
Definition itoa (i : nat) : bytes := B (NilEmpty.string_of_uint (Nat.to_uint i)).

Definition itemRequired (i : nat) (what : bytes) : error :=
  B "item[" ++ itoa i ++ B "]." ++ what ++ B " is required".

(** The loop over [r.Items], from index [i] on. *)
Fixpoint validateItems (i : nat) (items : list Item) : option error :=
  match items with
  | [] => None
  | item :: rest =>
      if beq (Raw item) [] then Some (itemRequired i (B "raw"))
      else if beq (Name item) [] then Some (itemRequired i (B "name"))
      else
        match UnitPrice item with
        | None => Some (itemRequired i (B "unit_price"))
        | Some _ => validateItems (S i) rest
        end
  end.

Definition validateReceipt (r : Receipt) : option error :=
  if beq (Merchant r) [] then Some (B "merchant is required")
  else if beq (Currency r) [] then Some (B "currency is required")
  else
    match Total r with
    | None => Some (B "total is required")
    | Some _ =>
        if (length (Items r) =? 0)%nat then Some (B "at least one item is required")
        else validateItems 0 (Items r)
    end.

End testcli.

(* ------------------------------------------------------------------ *)
(** * What the specification talks about *)

Module Spec.

Import server.

(** A text inside a [```json] block and inside a plain block. *)
Definition wrapJson (j : bytes) : bytes := fenceJson ++ [LF] ++ j ++ [LF] ++ fence.
Definition wrapPlain (j : bytes) : bytes := fence ++ [LF] ++ j ++ [LF] ++ fence.

Definition present (A : Type) (o : option A) : bool :=
  match o with
  | Some _ => true
  | None => false
  end.

Definition nonEmpty (A : Type) (l : list A) : bool :=
  match l with
  | [] => false
  | _ => true
  end.

(** The sum of [quantity * unitPrice] over the items. *)
Definition itemsSum (items : list pb.ParsedItem) : float64 :=
  fold_left (fun sum item => add64 sum (mul64 (pb.Qty item) (pb.UnitPrice item)))
            items (S754_zero false).

(** Reconciliation, in the specification's words: the subtotal is
    present, there is an item, and the items' sum is within
    [0.05 * subtotal] of the subtotal. *)
Definition reconciles (r : pb.ParsedReceipt) : bool :=
  match pb.Subtotal r with
  | Some subtotal =>
      nonEmpty (pb.Items r)
      && le64 (abs64 (sub64 (itemsSum (pb.Items r)) subtotal))
              (mul64 subtotal (f64 5 100))
  | None => false
  end.

Definition plus (b : bool) (score : float32) : float32 :=
  if b then add32 score (f32 1 10) else score.

Definition clamp (score : float32) : float32 :=
  if gt32 score (f32 1 1) then f32 1 1 else score.

(** The score, in the specification's words: 0.5, plus 0.1 for each term
    that holds, at most 1.0. *)
Definition Score (r : pb.ParsedReceipt) : float32 :=
  clamp (plus (reconciles r)
        (plus (nonEmpty (pb.Items r))
        (plus (present (pb.Total r))
        (plus (present (pb.Date r))
        (plus (present (pb.Merchant r)) (f32 5 10)))))).

(** The four presence terms alone. *)
Definition baseScore (r : pb.ParsedReceipt) : float32 :=
  plus (nonEmpty (pb.Items r))
  (plus (present (pb.Total r))
  (plus (present (pb.Date r))
  (plus (present (pb.Merchant r)) (f32 5 10)))).

(** 0.5 plus [k] times 0.1, at most 1.0, in [float32]. *)
Definition scoreOf (k : nat) : float32 :=
  clamp (Nat.iter k (fun score => add32 score (f32 1 10)) (f32 5 10)).

(** The same in exact arithmetic. *)
Definition exactScore (k : nat) : QArith_base.Q :=
  QArith_base.Qmake (Z.min 10 (5 + Z.of_nat k)) 10.

(** How many of the five terms hold. *)
Definition terms (r : pb.ParsedReceipt) : nat :=
  Nat.b2n (present (pb.Merchant r)) + Nat.b2n (present (pb.Date r))
  + Nat.b2n (present (pb.Total r)) + Nat.b2n (nonEmpty (pb.Items r))
  + Nat.b2n (reconciles r).

(** The value of a finite float as a fraction. *)
Definition toQ (x : spec_float) : QArith_base.Q :=
  match x with
  | S754_finite s m e =>
      let n := if s then Zneg m else Zpos m in
      match e with
      | Zneg p => QArith_base.Qmake n (2 ^ p)
      | _ => QArith_base.Qmake (n * 2 ^ e) 1
      end
  | _ => QArith_base.Qmake 0 1
  end.

(** A receipt with one field replaced. *)
Definition withMerchant (r : pb.ParsedReceipt) (m : option bytes) : pb.ParsedReceipt :=
  {| pb.Merchant := m; pb.Date := pb.Date r; pb.Currency := pb.Currency r;
     pb.Items := pb.Items r; pb.Subtotal := pb.Subtotal r; pb.Tax := pb.Tax r;
     pb.Total := pb.Total r; pb.Confidence := pb.Confidence r |}.

Definition withDate (r : pb.ParsedReceipt) (d : option bytes) : pb.ParsedReceipt :=
  {| pb.Merchant := pb.Merchant r; pb.Date := d; pb.Currency := pb.Currency r;
     pb.Items := pb.Items r; pb.Subtotal := pb.Subtotal r; pb.Tax := pb.Tax r;
     pb.Total := pb.Total r; pb.Confidence := pb.Confidence r |}.

Definition withTotal (r : pb.ParsedReceipt) (t : option float64) : pb.ParsedReceipt :=
  {| pb.Merchant := pb.Merchant r; pb.Date := pb.Date r; pb.Currency := pb.Currency r;
     pb.Items := pb.Items r; pb.Subtotal := pb.Subtotal r; pb.Tax := pb.Tax r;
     pb.Total := t; pb.Confidence := pb.Confidence r |}.

Definition withSubtotal (r : pb.ParsedReceipt) (t : option float64) : pb.ParsedReceipt :=
  {| pb.Merchant := pb.Merchant r; pb.Date := pb.Date r; pb.Currency := pb.Currency r;
     pb.Items := pb.Items r; pb.Subtotal := t; pb.Tax := pb.Tax r;
     pb.Total := pb.Total r; pb.Confidence := pb.Confidence r |}.

Definition withItems (r : pb.ParsedReceipt) (items : list pb.ParsedItem) : pb.ParsedReceipt :=
  {| pb.Merchant := pb.Merchant r; pb.Date := pb.Date r; pb.Currency := pb.Currency r;
     pb.Items := items; pb.Subtotal := pb.Subtotal r; pb.Tax := pb.Tax r;
     pb.Total := pb.Total r; pb.Confidence := pb.Confidence r |}.

(** A receipt with one item of quantity 1 at the given unit price. *)
Definition oneItem (subtotal unitPrice : float64) : pb.ParsedReceipt :=
  {| pb.Merchant := None; pb.Date := None; pb.Currency := None;
     pb.Items := [ {| pb.Raw := B "ITEM"; pb.Name := None;
                      pb.Qty := f64 1 1; pb.UnitPrice := unitPrice |} ];
     pb.Subtotal := Some subtotal; pb.Tax := None; pb.Total := None;
     pb.Confidence := S754_zero false |}.

Definition emptyReceipt : pb.ParsedReceipt :=
  {| pb.Merchant := None; pb.Date := None; pb.Currency := None; pb.Items := [];
     pb.Subtotal := None; pb.Tax := None; pb.Total := None;
     pb.Confidence := S754_zero false |}.

(** ** Values that fit the fields they are stored in *)

Import Json.

Definition isOk (A : Type) (r : Result A) : bool :=
  match r with
  | Ok _ => true
  | Err _ => false
  end.

(** A string or [null]: what a [string] or [*string] field takes. *)
Definition fitsString (v : Value) : bool :=
  match v with
  | Str _ | Null => true
  | _ => false
  end.

(** A number within the range of [float64], or [null]. *)
Definition fitsFloat (v : Value) : bool :=
  match v with
  | Number lit => present (ParseFloat lit)
  | Null => true
  | _ => false
  end.

Definition fitsItemMember (kv : bytes * Value) : bool :=
  match fieldOf itemFields (fst kv) with
  | None => true
  | Some (fRaw | fName) => fitsString (snd kv)
  | Some (fQty | fUnitPrice) => fitsFloat (snd kv)
  end.

(** An object whose known members fit, or [null]. *)
Definition fitsItem (v : Value) : bool :=
  match v with
  | Object ms => forallb fitsItemMember ms
  | Null => true
  | _ => false
  end.

Definition fitsItems (v : Value) : bool :=
  match v with
  | Array es => forallb fitsItem es
  | Null => true
  | _ => false
  end.

Definition fitsParsedMember (kv : bytes * Value) : bool :=
  match fieldOf parsedFields (fst kv) with
  | None => true
  | Some (fMerchant | fDate | fCurrency) => fitsString (snd kv)
  | Some fItems => fitsItems (snd kv)
  | Some (fSubtotal | fTax | fTotal) => fitsFloat (snd kv)
  end.

(** The receipt schema: an object whose known members fit, or [null]. *)
Definition fitsParsed (v : Value) : bool :=
  match v with
  | Object ms => forallb fitsParsedMember ms
  | Null => true
  | _ => false
  end.

(** A key that selects one of [fields]. *)
Definition known (A : Type) (fields : list (bytes * A)) (kv : bytes * Value) : bool :=
  present (fieldOf fields (fst kv)).



(** A decoded item as the validation helper sees it, and the helper's
    verdict on it alone. *)
Definition asCliItem (it : itemJSON) : testcli.Item :=
  {| testcli.Raw := Raw it; testcli.Name := Name it;
     testcli.Qty := Qty it; testcli.UnitPrice := UnitPrice it |}.


(** ** Texts to decode *)




Definition merchantNumber : bytes := J "{'merchant': 5}".

(** The reply of the specification's end-to-end scenario. *)
Definition acmeReply : bytes :=
  wrapJson (J "{'merchant':'Acme','currency':'CAD','items':[{'raw':'EGGS','name':'Eggs','qty':1,'unit_price':4.5}],'subtotal':4.5,'total':4.5}").

Definition acmeReceipt : pb.ParsedReceipt :=
  {| pb.Merchant := Some (B "Acme"); pb.Date := None; pb.Currency := Some (B "CAD");
     pb.Items := [ {| pb.Raw := B "EGGS"; pb.Name := Some (B "Eggs");
                      pb.Qty := f64 1 1; pb.UnitPrice := f64 45 10 |} ];
     pb.Subtotal := Some (f64 45 10); pb.Tax := None; pb.Total := Some (f64 45 10);
     pb.Confidence := scoreOf 4 |}.

(** ** Requests and backends to run the handlers on *)

(** The error code a handler's result carries, if it carries one. *)
Definition codeOf (o : Outcome (option pb.ParseReceiptResponse * option error) * list Event)
  : option pb.OCRErrorCode :=
  match fst o with
  | Returns (Some resp, None) =>
      match pb.Error resp with
      | Some e => Some (pb.Code e)
      | None => None
      end
  | _ => None
  end.

(** What the handler answers once the model call has failed. *)
Definition failureResponse (err : error) (after : context.Ending) : pb.ParseReceiptResponse :=
  match context.Err after with
  | Some context.DeadlineExceeded =>
      errorResponse pb.OCRErrorCode_OCR_ERROR_TIMEOUT (B "inference timeout")
  | _ => errorResponse pb.OCRErrorCode_OCR_ERROR_MODEL_ERROR err
  end.

(** A backend call left a trace. *)
Definition isModelCall (e : Event) : bool :=
  match e with
  | OllamaGenerate _ _ | GeminiGenerateContent _ _ _ => true
  | _ => false
  end.

Definition stdLogger : Logger := {| Threshold := InfoLevel |}.

(** A local backend that answers [reply]. *)
Definition ollamaAnswering (reply : bytes) : api.Client :=
  {| api.Generate := fun _ _ =>
       {| api.Responses := [ {| api.Response := reply |} ];
          api.GenerateErr := None; api.After := context.Open |};
     api.List := fun _ => None |}.

(** A local backend whose call fails with [err] while the context ends
    as [after] says. *)
Definition ollamaFailing (err : error) (after : context.Ending) : api.Client :=
  {| api.Generate := fun _ _ =>
       {| api.Responses := []; api.GenerateErr := Some err; api.After := after |};
     api.List := fun _ => Some err |}.

Definition geminiAnswering (reply : bytes) : genai.Client :=
  {| genai.GenerateContent := fun _ _ _ =>
       {| genai.Reply := inl reply; genai.After := context.Open |} |}.

Definition localServer (c : api.Client) : Server :=
  New (Some c) None (B "qwen2.5vl:3b") stdLogger.

Definition hostedServer (c : genai.Client) : Server :=
  New None (Some c) (B "gemini-2.0-flash") stdLogger.

Definition requestOf (image : bytes) : pb.ParseReceiptRequest :=
  {| pb.ImageData := image; pb.ContentType := [] |}.

Definition someImage : bytes := [byte 255; byte 216; byte 255].

(** An image of 5 MiB and one byte. *)
Definition hugeImage : bytes := repeat (byte 0) (Z.to_nat (5 * 1024 * 1024 + 1)).

End Spec.
Import Spec.

Unset Implicit Arguments.

(* ------------------------------------------------------------------ *)
(** * Byte strings: prefixes and the replacement loop *)

Section Prefixes.

Lemma HasPrefix_length (p s : bytes) :
  HasPrefix p s = true -> (length p <= length s)%nat.
Proof.
  revert s; induction p as [|a p IH]; intros [|y s]; simpl; try lia; try discriminate.
  intros H; apply andb_true_iff in H as [_ H]; apply IH in H; lia.
Qed.

(** A byte that does not occur in [p] can be appended after [x] without
    changing whether [p] is a prefix. *)
Lemma HasPrefix_app_other (p x r : bytes) (c : ascii) :
  ~ In c p -> HasPrefix p (x ++ c :: r) = HasPrefix p x.
Proof.
  revert x; induction p as [|a p IH]; intros x Hc; [reflexivity|].
  destruct x as [|y x]; simpl.
  - destruct (Ascii.eqb_spec a c) as [->|]; [|reflexivity].
    exfalso; apply Hc; left; reflexivity.
  - rewrite IH; [reflexivity|]. intros H; apply Hc; right; exact H.
Qed.

Lemma HasPrefix_app_tail (p x r : bytes) (c : ascii) :
  x <> [] -> ~ In c (tl p) -> HasPrefix p (x ++ c :: r) = HasPrefix p x.
Proof.
  intros Hx Hc; destruct p as [|a p]; [reflexivity|].
  destruct x as [|y x]; [congruence|]; simpl in *.
  now rewrite HasPrefix_app_other.
Qed.

Lemma prefixLen_le (pats : list bytes) (s : bytes) :
  (prefixLen pats s <= length s)%nat.
Proof.
  induction pats as [|p ps IH]; simpl; [lia|].
  destruct (HasPrefix p s) eqn:E; [now apply HasPrefix_length|exact IH].
Qed.

Lemma prefixLen_app_tail (pats : list bytes) (x r : bytes) (c : ascii) :
  x <> [] -> Forall (fun p => ~ In c (tl p)) pats ->
  prefixLen pats (x ++ c :: r) = prefixLen pats x.
Proof.
  intros Hx H; induction H as [|p ps Hp _ IH]; simpl; [reflexivity|].
  now rewrite HasPrefix_app_tail, IH.
Qed.

Lemma countWhile_le_length (f : ascii -> bool) (s : bytes) :
  (countWhile f s <= length s)%nat.
Proof. induction s as [|c r IH]; simpl; [lia|]. destruct (f c); simpl; lia. Qed.

End Prefixes.

Section ReplaceLoop.

Variable matchAt : bytes -> nat.
Variable new : bytes.

Let loop := replaceLoop matchAt new.

Lemma replaceLoop_skip (k : nat) (s : bytes) :
  loop k s = loop 0 (skipn k s).
Proof.
  revert k; induction s as [|c r IH]; intros [|k]; try reflexivity.
  simpl skipn. rewrite <- IH. reflexivity.
Qed.

Lemma replaceLoop_cons (c : ascii) (r : bytes) :
  loop 0 (c :: r) =
  match matchAt (c :: r) with
  | O => c :: loop 0 r
  | S k => new ++ loop 0 (skipn k r)
  end.
Proof.
  unfold loop; simpl. destruct (matchAt (c :: r)); [reflexivity|].
  f_equal. apply replaceLoop_skip.
Qed.

(** A byte the matcher never looks at passes through at the end. *)
Lemma replaceLoop_snoc (c : ascii) :
  (forall y, matchAt (y ++ [c]) = matchAt y) ->
  (forall y, (matchAt y <= length y)%nat) ->
  forall y k, (k <= length y)%nat ->
    loop k (y ++ [c]) = loop k y ++ [c].
Proof.
  intros Hm Hle; induction y as [|a y IH]; intros k Hk.
  - assert (k = 0%nat) by (simpl in Hk; lia); subst k.
    unfold loop; simpl. specialize (Hm []); specialize (Hle []); simpl in *.
    assert (E : matchAt [c] = 0%nat) by lia. now rewrite E.
  - destruct k as [|k]; unfold loop in *; simpl.
    + specialize (Hm (a :: y)); simpl in Hm; rewrite Hm.
      specialize (Hle (a :: y)); simpl in Hle.
      destruct (matchAt (a :: y)) as [|n].
      * simpl; f_equal; apply IH; lia.
      * rewrite IH by lia. now rewrite app_assoc.
    + apply IH; simpl in Hk; lia.
Qed.

(** Leading bytes at which nothing matches are copied. *)
Lemma replaceLoop_copy (w z : bytes) :
  (forall a t, In a w -> matchAt (a :: t) = 0%nat) ->
  loop 0 (w ++ z) = w ++ loop 0 z.
Proof.
  induction w as [|a w IH]; intros H; [reflexivity|].
  simpl app. rewrite replaceLoop_cons, (H a (w ++ z)) by (left; reflexivity).
  f_equal. apply IH. intros b t Hb; apply H; right; exact Hb.
Qed.

End ReplaceLoop.

(* ------------------------------------------------------------------ *)
(** * The match of [codeBlockRe], in closed form *)

Section CodeBlockRe.

Import regexp.

Lemma replaceLoop_ext (m1 m2 : bytes -> nat) (new : bytes) :
  (forall s, m1 s = m2 s) ->
  forall k s, replaceLoop m1 new k s = replaceLoop m2 new k s.
Proof.
  intros H k s; revert k; induction s as [|c r IH]; intros k; [reflexivity|].
  simpl. destruct k as [|k]; [|apply IH].
  rewrite H. destruct (m2 (c :: r)); now rewrite IH.
Qed.

Lemma HasPrefix_app (p q s : bytes) :
  HasPrefix (p ++ q) s = HasPrefix p s && HasPrefix q (skipn (length p) s).
Proof.
  revert s; induction p as [|a p IH]; intros s; [reflexivity|].
  destruct s as [|y s]; simpl; [reflexivity|].
  rewrite IH. now rewrite andb_assoc.
Qed.

(** [\s*] takes every [\s] byte when what follows always matches. *)
Lemma starLoop_class (f : ascii -> bool) (fuel : nat) (s : bytes) :
  (length s <= fuel)%nat ->
  starLoop (fun s0 k => match s0 with
                          | [] => None
                          | c :: r => if f c then k r else None
                          end) (fun r => Some r) fuel s
  = Some (skipn (countWhile f s) s).
Proof.
  revert s; induction fuel as [|fuel IH]; intros s Hs.
  - destruct s; [reflexivity|simpl in Hs; lia].
  - destruct s as [|c r]; [reflexivity|]. cbn [starLoop countWhile].
    destruct (f c); [|reflexivity].
    replace (length r <? length (c :: r))%nat with true
      by (symmetry; apply Nat.ltb_lt; simpl; lia).
    rewrite IH by (simpl in Hs; lia). reflexivity.
Qed.

Lemma skipn_length_sub (n : nat) (s : bytes) :
  (n <= length s)%nat -> (length s - length (skipn n s))%nat = n.
Proof. intros H. rewrite length_skipn. lia. Qed.

(** The regular expression matches what [fenceLen] measures. *)
Lemma codeBlockRe_matchAt (s : bytes) : matchAt codeBlockRe s = fenceLen s.
Proof.
  unfold matchAt, codeBlockRe, fenceLen. cbn [matchHere].
  change fenceJson with (fence ++ B "json"). rewrite HasPrefix_app.
  change (length fence) with 3%nat. change (length (B "json")) with 4%nat.
  destruct (HasPrefix fence s) eqn:E3; [|reflexivity]. cbn [andb].
  pose proof (HasPrefix_length _ _ E3) as L3. change (length fence) with 3%nat in L3.
  destruct (HasPrefix (B "json") (skipn 3 s)) eqn:E4.
  - pose proof (HasPrefix_length _ _ E4) as L4.
    change (length (B "json")) with 4%nat in L4. rewrite length_skipn in L4.
    rewrite starLoop_class by lia. rewrite !skipn_skipn.
    pose proof (countWhile_le_length reSpace (skipn 4 (skipn 3 s))) as Hc.
    rewrite skipn_skipn in *. rewrite length_skipn in Hc.
    change (4 + 3)%nat with 7%nat in *.
    rewrite skipn_length_sub by lia. lia.
  - rewrite starLoop_class by lia. rewrite skipn_skipn.
    pose proof (countWhile_le_length reSpace (skipn 3 s)) as Hc.
    rewrite length_skipn in Hc.
    rewrite skipn_length_sub by lia. lia.
Qed.

Lemma ReplaceAllString_codeBlockRe (s repl : bytes) :
  ReplaceAllString codeBlockRe s repl = replaceLoop fenceLen repl 0 s.
Proof. apply replaceLoop_ext, codeBlockRe_matchAt. Qed.

End CodeBlockRe.

(* ------------------------------------------------------------------ *)
(** * [extractJSON] on fenced text *)

Section Fences.

Lemma countWhile_app (f : ascii -> bool) (y z : bytes) :
  countWhile f (y ++ z) =
  if (countWhile f y =? length y)%nat then (length y + countWhile f z)%nat
  else countWhile f y.
Proof.
  induction y as [|c y IH]; simpl; [reflexivity|].
  destruct (f c); [|reflexivity]. rewrite IH. simpl.
  destruct (countWhile f y =? length y)%nat; reflexivity.
Qed.

Lemma countWhile_firstn (f : ascii -> bool) (s : bytes) :
  Forall (fun c => f c = true) (firstn (countWhile f s) s).
Proof.
  induction s as [|c r IH]; simpl; [constructor|].
  destruct (f c) eqn:E; simpl; [constructor; assumption|constructor].
Qed.

Lemma reSpace_cases (c : ascii) :
  reSpace c = true -> c = TAB \/ c = LF \/ c = FF \/ c = CR \/ c = SP.
Proof.
  unfold reSpace; intros H.
  repeat (apply orb_true_iff in H as [H|H]);
    apply Ascii.eqb_eq in H; auto.
Qed.

Let sfx : bytes := LF :: fence.

Lemma LF_not_in_fenceJson : ~ In LF fenceJson.
Proof. cbv; intuition discriminate. Qed.

Lemma LF_not_in_fence : ~ In LF fence.
Proof. cbv; intuition discriminate. Qed.

(** The match at the head of [x], seen through the prefix it starts with. *)
Lemma fenceLen_unfold (x : bytes) :
  fenceLen x =
  if HasPrefix fenceJson x then (7 + countWhile reSpace (skipn 7 x))%nat
  else if HasPrefix fence x then (3 + countWhile reSpace (skipn 3 x))%nat
  else 0%nat.
Proof. reflexivity. Qed.

Lemma fenceLen_le (x : bytes) : (fenceLen x <= length x)%nat.
Proof.
  rewrite fenceLen_unfold.
  destruct (HasPrefix fenceJson x) eqn:E1.
  - apply HasPrefix_length in E1. change (length fenceJson) with 7%nat in E1.
    pose proof (countWhile_le_length reSpace (skipn 7 x)) as H.
    rewrite length_skipn in H. lia.
  - destruct (HasPrefix fence x) eqn:E2; [|lia].
    apply HasPrefix_length in E2. change (length fence) with 3%nat in E2.
    pose proof (countWhile_le_length reSpace (skipn 3 x)) as H.
    rewrite length_skipn in H. lia.
Qed.

Lemma countWhile_sfx (y : bytes) :
  countWhile reSpace (y ++ sfx) =
  if (countWhile reSpace y =? length y)%nat then S (length y)
  else countWhile reSpace y.
Proof.
  rewrite countWhile_app.
  destruct (countWhile reSpace y =? length y)%nat; [|reflexivity].
  change (countWhile reSpace sfx) with 1%nat. lia.
Qed.

Lemma fence_sfx_len (p x : bytes) :
  HasPrefix p x = true ->
  let m := (length p + countWhile reSpace (skipn (length p) x))%nat in
  (length p + countWhile reSpace (skipn (length p) (x ++ sfx)))%nat =
  if (m =? length x)%nat then S m else m.
Proof.
  intros E m. pose proof (HasPrefix_length _ _ E) as L.
  rewrite skipn_app. replace (length p - length x)%nat with 0%nat by lia.
  change (skipn 0 sfx) with sfx. rewrite countWhile_sfx, length_skipn.
  pose proof (countWhile_le_length reSpace (skipn (length p) x)) as H.
  rewrite length_skipn in H. subst m.
  destruct (Nat.eqb_spec (countWhile reSpace (skipn (length p) x)) (length x - length p)) as [E1|E1];
  destruct (Nat.eqb_spec (length p + countWhile reSpace (skipn (length p) x)) (length x)) as [E2|E2];
  lia.
Qed.

(** What the closing fence adds to the match at the head of [x]: one
    byte (the line feed) when the match runs to the end of [x]. *)
Lemma fenceLen_sfx (x : bytes) :
  fenceLen (x ++ sfx) =
  let m := fenceLen x in
  if (m =? 0)%nat then 0%nat else if (m =? length x)%nat then S m else m.
Proof.
  rewrite !fenceLen_unfold. unfold sfx.
  rewrite HasPrefix_app_other by exact LF_not_in_fenceJson.
  rewrite HasPrefix_app_other by exact LF_not_in_fence.
  fold sfx.
  destruct (HasPrefix fenceJson x) eqn:E1.
  - apply (fence_sfx_len fenceJson x E1).
  - destruct (HasPrefix fence x) eqn:E2; [|reflexivity].
    apply (fence_sfx_len fence x E2).
Qed.

Let R (s : bytes) : bytes := replaceLoop fenceLen [] 0 s.

(** The closing fence leaves at most its line feed behind. *)
Lemma regexp_closing_fence (x : bytes) :
  R (x ++ sfx) = R x \/ R (x ++ sfx) = R x ++ [LF].
Proof.
  remember (length x) as n eqn:Hn.
  revert x Hn; induction n as [n IH] using lt_wf_ind; intros x Hn.
  destruct x as [|c r].
  - right; reflexivity.
  - unfold R in *.
    change ((c :: r) ++ sfx) with (c :: (r ++ sfx)).
    rewrite !replaceLoop_cons.
    change (c :: r ++ sfx) with ((c :: r) ++ sfx).
    rewrite fenceLen_sfx.
    pose proof (fenceLen_le (c :: r)) as Hle.
    destruct (fenceLen (c :: r)) as [|k] eqn:E; cbv zeta; cbn [Nat.eqb].
    + destruct (IH (length r) ltac:(simpl in Hn; lia) r eq_refl) as [H|H];
        rewrite H; [left|right]; reflexivity.
    + simpl length in *. cbn [Nat.eqb].
      destruct (Nat.eqb_spec k (length r)) as [Ek|Ek].
      * subst k. left.
        change (skipn (S (length r)) (r ++ sfx)) with (skipn (S (length r)) (r ++ LF :: fence)).
        replace (r ++ LF :: fence) with ((r ++ [LF]) ++ fence)
          by (rewrite <- app_assoc; reflexivity).
        rewrite skipn_app, skipn_all2 by (rewrite length_app; simpl; lia).
        rewrite length_app, skipn_all. simpl length.
        replace (S (length r) - (length r + 1))%nat with 0%nat by lia.
        reflexivity.
      * rewrite skipn_app. replace (k - length r)%nat with 0%nat by lia.
        change (skipn 0 sfx) with sfx.
        apply (IH (length (skipn k r))); [|reflexivity].
        rewrite length_skipn; lia.
Qed.

Lemma reSpace_no_match (a : ascii) (t : bytes) :
  reSpace a = true -> fenceLen (a :: t) = 0%nat.
Proof.
  intros H; apply reSpace_cases in H.
  destruct H as [->|[->|[->|[->| ->]]]]; reflexivity.
Qed.

Let fenceAt (t : bytes) : nat := if HasPrefix fence t then length fence else 0%nat.

Lemma reSpace_no_fence (a : ascii) (t : bytes) :
  reSpace a = true -> fenceAt (a :: t) = 0%nat.
Proof.
  intros H; apply reSpace_cases in H.
  destruct H as [->|[->|[->|[->| ->]]]]; reflexivity.
Qed.

(** The opening fence takes the white space that follows it. *)
Lemma regexp_opening_fenceJson (s : bytes) :
  R (fenceJson ++ LF :: s) = R (skipn (countWhile reSpace s) s).
Proof.
  unfold R.
  change (fenceJson ++ LF :: s) with ("`"%char :: (B "``json" ++ LF :: s)).
  rewrite replaceLoop_cons.
  change (fenceLen ("`"%char :: B "``json" ++ LF :: s))
    with (S (7 + countWhile reSpace s)).
  reflexivity.
Qed.

Lemma regexp_opening_fence (s : bytes) :
  R (fence ++ LF :: s) = R (skipn (countWhile reSpace s) s).
Proof.
  unfold R.
  change (fence ++ LF :: s) with ("`"%char :: (B "``" ++ LF :: s)).
  rewrite replaceLoop_cons.
  change (fenceLen ("`"%char :: B "``" ++ LF :: s))
    with (S (3 + countWhile reSpace s)).
  reflexivity.
Qed.

(** Leading white space is not part of any match. *)
Lemma regexp_leading_space (s : bytes) :
  R s = firstn (countWhile reSpace s) s ++ R (skipn (countWhile reSpace s) s).
Proof.
  unfold R.
  rewrite <- (firstn_skipn (countWhile reSpace s) s) at 1.
  apply replaceLoop_copy. intros a t Ha.
  apply reSpace_no_match.
  pose proof (countWhile_firstn reSpace s) as F.
  rewrite Forall_forall in F. now apply F.
Qed.

Let A (s : bytes) : bytes := ReplaceAll s fence [].

Lemma ReplaceAll_leading_space (w z : bytes) :
  Forall (fun c => reSpace c = true) w -> A (w ++ z) = w ++ A z.
Proof.
  intros F. unfold A, ReplaceAll. apply replaceLoop_copy.
  intros a t Ha. apply reSpace_no_fence.
  rewrite Forall_forall in F. now apply F.
Qed.

Lemma ReplaceAll_trailing_LF (y : bytes) : A (y ++ [LF]) = A y ++ [LF].
Proof.
  unfold A, ReplaceAll. apply replaceLoop_snoc; [| |lia].
  - intros z. now rewrite HasPrefix_app_other by exact LF_not_in_fence.
  - intros z. destruct (HasPrefix fence z) eqn:E; [|lia].
    now apply HasPrefix_length.
Qed.

End Fences.

(* ------------------------------------------------------------------ *)
(** * [strings.TrimSpace] *)

Section Trim.

Lemma spaceRunes_tails : Forall (fun p : bytes => ~ In LF (tl p)) spaceRunes.
Proof. repeat constructor; cbv; intuition discriminate. Qed.

Lemma reSpace_is_space (a : ascii) (t : bytes) :
  reSpace a = true -> prefixLen spaceRunes (a :: t) = 1%nat.
Proof.
  intros H; apply reSpace_cases in H.
  destruct H as [->|[->|[->|[->| ->]]]]; reflexivity.
Qed.

Lemma TrimLeftSpace_leading (w x : bytes) :
  Forall (fun c => reSpace c = true) w -> TrimLeftSpace (w ++ x) = TrimLeftSpace x.
Proof.
  unfold TrimLeftSpace. induction 1 as [|a w Ha _ IH]; [reflexivity|].
  simpl app. cbn [trimPrefixes]. now rewrite (reSpace_is_space _ _ Ha).
Qed.

Lemma trimPrefixes_snoc_LF (y : bytes) (k : nat) :
  (k <= length y)%nat ->
  trimPrefixes spaceRunes k (y ++ [LF]) =
  match trimPrefixes spaceRunes k y with
  | [] => []
  | t => t ++ [LF]
  end.
Proof.
  revert k; induction y as [|a y IH]; intros k Hk.
  - assert (k = 0%nat) by (simpl in Hk; lia); subst k. reflexivity.
  - destruct k as [|k].
    + change ((a :: y) ++ [LF]) with (a :: (y ++ [LF])). cbn [trimPrefixes].
      change (a :: (y ++ [LF])) with ((a :: y) ++ [LF]).
      rewrite prefixLen_app_tail by (try discriminate; exact spaceRunes_tails).
      pose proof (prefixLen_le spaceRunes (a :: y)) as L.
      destruct (prefixLen spaceRunes (a :: y)) as [|n]; [reflexivity|].
      apply IH. simpl in L; lia.
    + simpl app. cbn [trimPrefixes]. apply IH. simpl in Hk; lia.
Qed.

Lemma TrimRightSpace_snoc_LF (z : bytes) :
  TrimRightSpace (z ++ [LF]) = TrimRightSpace z.
Proof.
  unfold TrimRightSpace. rewrite rev_app_distr. reflexivity.
Qed.

Lemma TrimSpace_leading (w x : bytes) :
  Forall (fun c => reSpace c = true) w -> TrimSpace (w ++ x) = TrimSpace x.
Proof. intros F. unfold TrimSpace. now rewrite TrimLeftSpace_leading. Qed.

Lemma TrimSpace_trailing_LF (y : bytes) : TrimSpace (y ++ [LF]) = TrimSpace y.
Proof.
  unfold TrimSpace, TrimLeftSpace.
  rewrite trimPrefixes_snoc_LF by lia.
  destruct (trimPrefixes spaceRunes 0 y) as [|c t]; [reflexivity|].
  apply TrimRightSpace_snoc_LF.
Qed.

End Trim.

(* ------------------------------------------------------------------ *)
(** * Fences do not change what is extracted *)

Section ExtractFenced.

Lemma extractJSON_closed_form (s : bytes) :
  extractJSON s = TrimSpace (ReplaceAll (replaceLoop fenceLen [] 0 s) fence []).
Proof. unfold extractJSON. now rewrite ReplaceAllString_codeBlockRe. Qed.

Lemma extractJSON_fenced (opening j : bytes) :
  (forall s, replaceLoop fenceLen [] 0 (opening ++ LF :: s) =
             replaceLoop fenceLen [] 0 (skipn (countWhile reSpace s) s)) ->
  extractJSON (opening ++ [LF] ++ j ++ [LF] ++ fence) = extractJSON j.
Proof.
  intros Hopen. rewrite !extractJSON_closed_form.
  change (opening ++ [LF] ++ j ++ [LF] ++ fence)
    with (opening ++ LF :: (j ++ LF :: fence)).
  set (s := j ++ LF :: fence).
  rewrite Hopen.
  pose proof (regexp_leading_space s) as Hs.
  pose proof (countWhile_firstn reSpace s) as Hw.
  set (w := firstn (countWhile reSpace s) s) in *.
  set (t := skipn (countWhile reSpace s) s) in *.
  rewrite <- (TrimSpace_leading _ _ Hw).
  rewrite <- (ReplaceAll_leading_space _ _ Hw).
  rewrite <- Hs. subst s.
  destruct (regexp_closing_fence j) as [E|E]; rewrite E; [reflexivity|].
  rewrite ReplaceAll_trailing_LF. apply TrimSpace_trailing_LF.
Qed.

End ExtractFenced.

(* ------------------------------------------------------------------ *)
(** * The decoder *)

Section Decoder.

Import Json server.



Lemma storeMembers_isOk (A : Type) (member : A -> bytes -> Value -> Result A)
      (ok : bytes * Value -> bool) :
  (forall acc k v, isOk (member acc k v) = ok (k, v)) ->
  forall ms acc, isOk (storeMembers member ms acc) = forallb ok ms.
Proof.
  intros H; induction ms as [|[k v] ms IH]; intros acc; simpl; [reflexivity|].
  rewrite <- (H acc k v).
  destruct (member acc k v); simpl; [apply IH|reflexivity].
Qed.

Lemma storeElems_isOk (A : Type) (elem : Value -> Result A) (ok : Value -> bool) :
  (forall v, isOk (elem v) = ok v) ->
  forall vs, isOk (storeElems elem vs) = forallb ok vs.
Proof.
  intros H; induction vs as [|v vs IH]; simpl; [reflexivity|].
  rewrite <- (H v), <- IH.
  destruct (elem v); simpl; [|reflexivity].
  destruct (storeElems elem vs); reflexivity.
Qed.


Lemma storeString_isOk (f old : bytes) (v : Value) :
  isOk (storeString f old v) = fitsString v.
Proof. destruct v; reflexivity. Qed.

Lemma storeStringPtr_isOk (f : bytes) (v : Value) :
  isOk (storeStringPtr f v) = fitsString v.
Proof. destruct v; reflexivity. Qed.

Lemma storeFloatPtr_isOk (f : bytes) (v : Value) :
  isOk (storeFloatPtr f v) = fitsFloat v.
Proof. destruct v; try reflexivity. simpl. destruct (ParseFloat lit); reflexivity. Qed.

Lemma bind_isOk (A C : Type) (r : Result A) (k : A -> C) :
  isOk (Json.bind r (fun x => Ok (k x))) = isOk r.
Proof. destruct r; reflexivity. Qed.

Lemma itemMember_isOk (it : itemJSON) (k : bytes) (v : Value) :
  isOk (itemMember it k v) = fitsItemMember (k, v).
Proof.
  unfold itemMember, fitsItemMember; simpl.
  destruct (fieldOf itemFields k) as [[]|]; try reflexivity;
    rewrite bind_isOk;
    auto using storeString_isOk, storeFloatPtr_isOk.
Qed.

Lemma storeItem_isOk (v : Value) : isOk (storeItem v) = fitsItem v.
Proof.
  destruct v; try reflexivity. simpl.
  apply storeMembers_isOk, itemMember_isOk.
Qed.

Lemma storeItems_isOk (v : Value) : isOk (storeItems v) = fitsItems v.
Proof.
  destruct v; try reflexivity. simpl.
  apply storeElems_isOk, storeItem_isOk.
Qed.

Lemma parsedMember_isOk (p : parsedJSON) (k : bytes) (v : Value) :
  isOk (parsedMember p k v) = fitsParsedMember (k, v).
Proof.
  unfold parsedMember, fitsParsedMember; simpl.
  destruct (fieldOf parsedFields k) as [[]|]; try reflexivity;
    rewrite bind_isOk;
    auto using storeString_isOk, storeStringPtr_isOk, storeFloatPtr_isOk, storeItems_isOk.
Qed.

Lemma storeParsed_isOk (v : Value) : isOk (storeParsed v) = fitsParsed v.
Proof.
  destruct v; try reflexivity. simpl.
  apply storeMembers_isOk, parsedMember_isOk.
Qed.

(** Members with unknown keys are passed over. *)
Lemma storeMembers_known (A F : Type) (fields : list (bytes * F))
      (member : A -> bytes -> Value -> Result A) :
  (forall acc k v, fieldOf fields k = None -> member acc k v = Ok acc) ->
  forall ms acc,
    storeMembers member ms acc = storeMembers member (filter (known fields) ms) acc.
Proof.
  intros H; induction ms as [|[k v] ms IH]; intros acc; simpl; [reflexivity|].
  unfold known at 1; simpl.
  destruct (fieldOf fields k) eqn:E; simpl.
  - destruct (member acc k v); simpl; [apply IH|reflexivity].
  - rewrite (H acc k v E); simpl. apply IH.
Qed.


Lemma parsedMember_unknown (p : parsedJSON) (k : bytes) (v : Value) :
  fieldOf parsedFields k = None -> parsedMember p k v = Ok p.
Proof. unfold parsedMember; intros ->; reflexivity. Qed.


Lemma parseResponse_ok (raw : bytes) (p : parsedJSON) :
  Unmarshal (extractJSON raw) = Ok p -> parseResponse raw = (Some (receiptOf p), None).
Proof. unfold parseResponse; intros ->; reflexivity. Qed.

(** *** What a member does to each field *)













Section Given.

Variables (A F : Type) (fields : list (bytes * F)) (f : F).
Variable member : A -> bytes -> Value -> Result A.
Variable get : A -> bytes.
Hypothesis kept : forall acc acc' k v,
  member acc k v = Ok acc' -> (fieldOf fields k = Some f -> v = Null) -> get acc' = get acc.
Hypothesis set : forall acc acc' k s,
  member acc k (Str s) = Ok acc' -> fieldOf fields k = Some f -> get acc' = s.



End Given.

End Decoder.


(* ------------------------------------------------------------------ *)
(** * What the decoder guarantees *)

Section Decoding.

Import Json server.

(** C5: a text, the same text in a [```json] block and the same text in
    a plain block decode to the same result, record or error. *)
Theorem fence_wrapping_is_noop (j : bytes) :
  extractJSON (wrapJson j) = extractJSON j
  /\ extractJSON (wrapPlain j) = extractJSON j
  /\ parseResponse (wrapJson j) = parseResponse j
  /\ parseResponse (wrapPlain j) = parseResponse j.
Proof.
  assert (E1 : extractJSON (wrapJson j) = extractJSON j)
    by (apply extractJSON_fenced, regexp_opening_fenceJson).
  assert (E2 : extractJSON (wrapPlain j) = extractJSON j)
    by (apply extractJSON_fenced, regexp_opening_fence).
  unfold parseResponse. rewrite E1, E2. repeat split.
Qed.

Lemma parseResponse_fails_iff (raw : bytes) :
  snd (parseResponse raw) <> None <-> isOk (Unmarshal (extractJSON raw)) = false.
Proof.
  unfold parseResponse. destruct (Unmarshal (extractJSON raw)); simpl; split;
    congruence.
Qed.

(** C6 (as the code has it): the decoder fails exactly when the text is
    not syntactically valid JSON or a value does not fit the field it
    goes to (a string or null for merchant, date, currency, raw and
    name; a number in range or null for the amounts, qty and unit_price;
    an array of objects or nulls, or null, for items; an object or null
    at the top).  Members with unknown keys are passed over, an object
    with none of the known members decodes, dropping members of a text
    that fits leaves a text that fits, and a failure returns no record. *)
Theorem decode_fails_iff (raw : bytes) (ms : list (bytes * Value)) :
  (snd (parseResponse raw) <> None <->
     parse (extractJSON raw) = None
     \/ exists v, parse (extractJSON raw) = Some v /\ fitsParsed v = false)
  /\ (snd (parseResponse raw) <> None -> fst (parseResponse raw) = None)
  /\ (snd (parseResponse raw) = None -> exists r, parseResponse raw = (Some r, None))
  /\ storeParsed (Object ms) = storeParsed (Object (filter (known parsedFields) ms))
  /\ (forall ms', incl ms' ms ->
        fitsParsed (Object ms) = true -> fitsParsed (Object ms') = true)
  /\ (parse (extractJSON raw) = Some (Object ms) ->
      filter (known parsedFields) ms = [] ->
      parseResponse raw = (Some (receiptOf zeroParsed), None)).
Proof.
  split; [|split; [|split; [|split; [|split]]]].
  - rewrite parseResponse_fails_iff. unfold Unmarshal.
    destruct (parse (extractJSON raw)) as [v|]; simpl.
    + rewrite storeParsed_isOk. split.
      * intros H; right; exists v; auto.
      * intros [H|(v' & E & H)]; [discriminate|]. now injection E as <-.
    + split; auto.
  - unfold parseResponse. destruct (Unmarshal (extractJSON raw)); simpl; congruence.
  - unfold parseResponse. destruct (Unmarshal (extractJSON raw)); simpl;
      [eexists; reflexivity|discriminate].
  - simpl. apply storeMembers_known. intros; now apply parsedMember_unknown.
  - intros ms' Hi. simpl. rewrite !forallb_forall. intros H kv Hkv. apply H, Hi, Hkv.
  - intros E Hk. apply parseResponse_ok. unfold Unmarshal. rewrite E. simpl.
    rewrite (storeMembers_known _ _ parsedFields parsedMember)
      by (intros; now apply parsedMember_unknown).
    now rewrite Hk.
Qed.

(** C6, as stated, fails: [{"merchant": 5}] is valid JSON and the
    decoder rejects it. *)
Lemma valid_json_is_rejected :
  parse (extractJSON merchantNumber) = Some (Object [(B "merchant", Number (B "5"))])
  /\ fst (parseResponse merchantNumber) = None
  /\ snd (parseResponse merchantNumber) <> None.
Proof. split; [|split]; vm_compute; [reflexivity|reflexivity|discriminate]. Qed.







End Decoding.

(* ------------------------------------------------------------------ *)
(** * The confidence score *)

Section Confidence.

Import server.

Lemma nonEmpty_length (A : Type) (l : list A) :
  (0 <? length l)%nat = nonEmpty l.
Proof. destruct l; reflexivity. Qed.

(** The scorer computes the specification's sum. *)
Lemma calcConfidence_Score (r : pb.ParsedReceipt) : calcConfidence r = Score r.
Proof.
  unfold calcConfidence, Score, reconciles, itemsSum.
  rewrite !nonEmpty_length.
  destruct (pb.Merchant r), (pb.Date r), (pb.Total r), (pb.Subtotal r) as [sub|];
    destruct (nonEmpty (pb.Items r)); cbn [present plus andb];
    try reflexivity;
    destruct (le64 _ _); reflexivity.
Qed.

Lemma Score_terms (r : pb.ParsedReceipt) : Score r = scoreOf (terms r).
Proof.
  unfold Score, terms.
  destruct (present (pb.Merchant r)), (present (pb.Date r)), (present (pb.Total r)),
    (nonEmpty (pb.Items r)), (reconciles r); vm_compute; reflexivity.
Qed.

Lemma terms_le_5 (r : pb.ParsedReceipt) : (terms r <= 5)%nat.
Proof.
  unfold terms.
  destruct (present (pb.Merchant r)), (present (pb.Date r)), (present (pb.Total r)),
    (nonEmpty (pb.Items r)), (reconciles r); simpl; lia.
Qed.

Ltac upto5 k :=
  destruct k as [|[|[|[|[|[|k]]]]]]; [ | | | | | | exfalso; lia ].

Lemma scoreOf_mono (k k' : nat) :
  (k <= k')%nat -> (k' <= 5)%nat -> le32 (scoreOf k) (scoreOf k') = true.
Proof.
  intros H H'. upto5 k'; upto5 k; try (exfalso; lia); vm_compute; reflexivity.
Qed.

Lemma scoreOf_bounds (k : nat) :
  (k <= 5)%nat ->
  le32 (f32 5 10) (scoreOf k) = true /\ le32 (scoreOf k) (f32 1 1) = true.
Proof. intros H. upto5 k; split; vm_compute; reflexivity. Qed.

Lemma scoreOf_bounds_Q (k : nat) :
  (k <= 5)%nat ->
  QArith_base.Qle (QArith_base.Qmake 1 2) (toQ (scoreOf k))
  /\ QArith_base.Qle (toQ (scoreOf k)) (QArith_base.Qmake 1 1).
Proof.
  intros H. split; apply QArith_base.Qle_bool_iff; upto5 k; vm_compute; reflexivity.
Qed.

(** The rounding of [float32] is all that separates the score from the
    decimal sum. *)
Lemma scoreOf_exact (k : nat) :
  (k <= 5)%nat ->
  QArith_base.Qle
    (Qabs.Qabs (QArith_base.Qminus (toQ (scoreOf k)) (exactScore k)))
    (QArith_base.Qmake 1 (2 ^ 23)).
Proof.
  intros H. apply QArith_base.Qle_bool_iff.
  upto5 k; vm_compute; reflexivity.
Qed.

Lemma calcConfidence_mono (r r' : pb.ParsedReceipt) :
  (terms r <= terms r')%nat ->
  le32 (calcConfidence r) (calcConfidence r') = true.
Proof.
  intros H. rewrite !calcConfidence_Score, !Score_terms.
  apply scoreOf_mono; [exact H|apply terms_le_5].
Qed.

Lemma reconciles_iff (r : pb.ParsedReceipt) :
  reconciles r = true <->
  exists subtotal,
    pb.Subtotal r = Some subtotal /\ pb.Items r <> [] /\
    le64 (abs64 (sub64 (itemsSum (pb.Items r)) subtotal))
         (mul64 subtotal (f64 5 100)) = true.
Proof.
  unfold reconciles. destruct (pb.Subtotal r) as [sub|].
  - rewrite andb_true_iff. split.
    + intros [Hn Hle]. exists sub. repeat split; [|exact Hle].
      destruct (pb.Items r); [discriminate|discriminate].
    + intros (sub' & E & Hn & Hle). injection E as <-. split; [|exact Hle].
      destruct (pb.Items r); [congruence|reflexivity].
  - split; [discriminate|]. intros (sub' & E & _). discriminate.
Qed.

(** C3: the score is 0.5 plus 0.1 for each of merchant present, date
    present, total present, an item present and the reconciliation
    bonus, at most 1.0 (computed in [float32], so within [2^-23] of the
    decimal sum); it lies between 0.5 and 1.0; and supplying a merchant,
    date, total, subtotal or items that were absent never lowers it. *)
Theorem confidence_is_clamped_sum (r : pb.ParsedReceipt) :
  calcConfidence r = Score r
  /\ calcConfidence r = scoreOf (terms r)
  /\ QArith_base.Qle
       (Qabs.Qabs (QArith_base.Qminus (toQ (calcConfidence r)) (exactScore (terms r))))
       (QArith_base.Qmake 1 (2 ^ 23))
  /\ le32 (f32 5 10) (calcConfidence r) = true
  /\ le32 (calcConfidence r) (f32 1 1) = true
  /\ QArith_base.Qle (QArith_base.Qmake 1 2) (toQ (calcConfidence r))
  /\ QArith_base.Qle (toQ (calcConfidence r)) (QArith_base.Qmake 1 1)
  /\ (forall m, pb.Merchant r = None ->
        le32 (calcConfidence r) (calcConfidence (withMerchant r (Some m))) = true)
  /\ (forall d, pb.Date r = None ->
        le32 (calcConfidence r) (calcConfidence (withDate r (Some d))) = true)
  /\ (forall t, pb.Total r = None ->
        le32 (calcConfidence r) (calcConfidence (withTotal r (Some t))) = true)
  /\ (forall t, pb.Subtotal r = None ->
        le32 (calcConfidence r) (calcConfidence (withSubtotal r (Some t))) = true)
  /\ (forall items, pb.Items r = [] ->
        le32 (calcConfidence r) (calcConfidence (withItems r items)) = true).
Proof.
  pose proof (terms_le_5 r) as H5.
  split; [apply calcConfidence_Score|].
  split; [rewrite calcConfidence_Score; apply Score_terms|].
  split; [rewrite calcConfidence_Score, Score_terms; now apply scoreOf_exact|].
  split; [rewrite calcConfidence_Score, Score_terms; now apply scoreOf_bounds|].
  split; [rewrite calcConfidence_Score, Score_terms; now apply scoreOf_bounds|].
  split; [rewrite calcConfidence_Score, Score_terms; now apply scoreOf_bounds_Q|].
  split; [rewrite calcConfidence_Score, Score_terms; now apply scoreOf_bounds_Q|].
  repeat split; intros x Hx; apply calcConfidence_mono; unfold terms.
  - change (reconciles (withMerchant r (Some x))) with (reconciles r).
    cbn [withMerchant pb.Merchant pb.Date pb.Total pb.Items]. rewrite Hx.
    simpl; lia.
  - change (reconciles (withDate r (Some x))) with (reconciles r).
    cbn [withDate pb.Merchant pb.Date pb.Total pb.Items]. rewrite Hx.
    simpl; lia.
  - change (reconciles (withTotal r (Some x))) with (reconciles r).
    cbn [withTotal pb.Merchant pb.Date pb.Total pb.Items]. rewrite Hx.
    simpl; lia.
  - assert (E : reconciles r = false) by (unfold reconciles; now rewrite Hx).
    rewrite E. cbn [withSubtotal pb.Merchant pb.Date pb.Total pb.Items].
    simpl; lia.
  - assert (E : reconciles r = false).
    { unfold reconciles; rewrite Hx. now destruct (pb.Subtotal r). }
    rewrite E, Hx. cbn [withItems pb.Merchant pb.Date pb.Total pb.Items nonEmpty].
    simpl; lia.
Qed.

(** The score of a receipt that has nothing, and what a merchant adds. *)
Lemma confidence_is_clamped_sum_witness :
  calcConfidence emptyReceipt = f32 5 10
  /\ le32 (calcConfidence emptyReceipt)
          (calcConfidence (withMerchant emptyReceipt (Some (B "Acme")))) = true.
Proof.
  split.
  - exact (eq_trans (proj1 (proj2 (confidence_is_clamped_sum emptyReceipt))) eq_refl).
  - apply (proj1 (proj2 (proj2 (proj2 (proj2 (proj2 (proj2 (proj2
             (confidence_is_clamped_sum emptyReceipt))))))))).
    reflexivity.
Defined.

(** C4: the bonus of 0.1 is added exactly when the subtotal is present,
    there is an item, and the sum of quantity times unit price differs
    from the subtotal by at most 0.05 times the subtotal (in [float64]);
    with a subtotal of 100.0 it is added for items that sum to 104.9 and
    not for items that sum to 106.0. *)
Theorem reconciliation_bonus (r : pb.ParsedReceipt) :
  calcConfidence r = clamp (plus (reconciles r) (baseScore r))
  /\ gt32 (calcConfidence r) (clamp (baseScore r)) = reconciles r
  /\ (reconciles r = true <->
      exists subtotal,
        pb.Subtotal r = Some subtotal /\ pb.Items r <> [] /\
        le64 (abs64 (sub64 (itemsSum (pb.Items r)) subtotal))
             (mul64 subtotal (f64 5 100)) = true)
  /\ (pb.Subtotal r = Some (f64 100 1) -> pb.Items r <> [] ->
      itemsSum (pb.Items r) = f64 1049 10 -> reconciles r = true)
  /\ (pb.Subtotal r = Some (f64 100 1) ->
      itemsSum (pb.Items r) = f64 106 1 -> reconciles r = false).
Proof.
  split; [apply calcConfidence_Score|].
  split.
  { rewrite calcConfidence_Score. unfold Score, baseScore.
    destruct (present (pb.Merchant r)), (present (pb.Date r)), (present (pb.Total r)),
      (nonEmpty (pb.Items r)), (reconciles r); vm_compute; reflexivity. }
  split; [apply reconciles_iff|].
  split.
  - intros Hs Hi Hsum. unfold reconciles. rewrite Hs, Hsum.
    destruct (pb.Items r); [congruence|]. vm_compute; reflexivity.
  - intros Hs Hsum. unfold reconciles. rewrite Hs, Hsum.
    destruct (pb.Items r); vm_compute; reflexivity.
Qed.

(** One item of 104.9 against a subtotal of 100.0 earns the bonus; one
    item of 106.0 does not. *)
Lemma reconciliation_bonus_witness :
  reconciles (oneItem (f64 100 1) (f64 1049 10)) = true
  /\ reconciles (oneItem (f64 100 1) (f64 106 1)) = false
  /\ gt32 (calcConfidence (oneItem (f64 100 1) (f64 1049 10)))
          (calcConfidence (oneItem (f64 100 1) (f64 106 1))) = true.
Proof.
  split; [|split].
  - apply (proj1 (proj2 (proj2 (proj2 (reconciliation_bonus _)))));
      [reflexivity|discriminate|vm_compute; reflexivity].
  - apply (proj2 (proj2 (proj2 (proj2 (reconciliation_bonus _)))));
      [reflexivity|vm_compute; reflexivity].
  - vm_compute; reflexivity.
Defined.

End Confidence.

(* ------------------------------------------------------------------ *)
(** * The handlers *)

Section Handlers.

Import server.

(** C1: an image that is empty or larger than 5 MiB is answered with
    INVALID_IMAGE, and the handler leaves the trace as it found it: no
    backend is called. *)
Theorem invalid_image_fails_fast
        (s : Server) (ctx : context.Context) (req : pb.ParseReceiptRequest)
        (tr : list Event) :
  (length (pb.ImageData req) = 0%nat
   \/ (Z.of_nat (length (pb.ImageData req)) > 5 * 1024 * 1024)%Z) ->
  exists msg,
    ParseReceipt s ctx req tr =
      (Returns (Some (errorResponse pb.OCRErrorCode_OCR_ERROR_INVALID_IMAGE msg), None), tr)
    /\ codeOf (ParseReceipt s ctx req tr) = Some pb.OCRErrorCode_OCR_ERROR_INVALID_IMAGE
    /\ filter isModelCall (snd (ParseReceipt s ctx req tr)) = filter isModelCall tr.
Proof.
  intros H. unfold ParseReceipt.
  destruct H as [H|H].
  - rewrite H. exists (B "empty image"). repeat split.
  - destruct (Z.eqb_spec (Z.of_nat (length (pb.ImageData req))) 0) as [E|E]; [lia|].
    assert (G : (Z.of_nat (length (pb.ImageData req)) >? maxImageSize)%Z = true).
    { apply Z.gtb_lt. change maxImageSize with 5242880%Z. lia. }
    rewrite G. exists (B "image exceeds 5MB limit"). repeat split.
Qed.

Lemma invalid_image_fails_fast_witness :
  (exists msg,
     run (ParseReceipt (localServer (ollamaAnswering (B "{}"))) context.Background
                       (requestOf [])) =
       (Returns (Some (errorResponse pb.OCRErrorCode_OCR_ERROR_INVALID_IMAGE msg), None), [])
     /\ codeOf (ParseReceipt (localServer (ollamaAnswering (B "{}"))) context.Background
                       (requestOf []) []) = Some pb.OCRErrorCode_OCR_ERROR_INVALID_IMAGE
     /\ filter isModelCall
          (snd (ParseReceipt (localServer (ollamaAnswering (B "{}"))) context.Background
                       (requestOf []) [])) = filter isModelCall [])
  /\ (exists msg,
        run (ParseReceipt (localServer (ollamaAnswering (B "{}"))) context.Background
                          (requestOf hugeImage)) =
          (Returns (Some (errorResponse pb.OCRErrorCode_OCR_ERROR_INVALID_IMAGE msg), None), [])
        /\ codeOf (ParseReceipt (localServer (ollamaAnswering (B "{}"))) context.Background
                          (requestOf hugeImage) []) = Some pb.OCRErrorCode_OCR_ERROR_INVALID_IMAGE
        /\ filter isModelCall
             (snd (ParseReceipt (localServer (ollamaAnswering (B "{}"))) context.Background
                          (requestOf hugeImage) [])) = filter isModelCall []).
Proof.
  split.
  - apply (invalid_image_fails_fast (localServer (ollamaAnswering (B "{}")))
             context.Background (requestOf []) []).
    left; reflexivity.
  - apply (invalid_image_fails_fast (localServer (ollamaAnswering (B "{}")))
             context.Background (requestOf hugeImage) []).
    right. unfold requestOf, hugeImage. cbn [pb.ImageData].
    rewrite repeat_length, Z2Nat.id; lia.
Defined.

Ltac run_handler :=
  unfold ParseReceipt, callModel, callGemini, callOllama, Health,
         Effect.bind, emit, ret, panic, run; cbn beta iota zeta.

(** The size checks pass for an image of 1 byte to 5 MiB. *)
Lemma size_checks_pass (img : bytes) :
  length img <> 0%nat -> (Z.of_nat (length img) <= 5 * 1024 * 1024)%Z ->
  (Z.of_nat (length img) =? 0)%Z = false
  /\ (Z.of_nat (length img) >? maxImageSize)%Z = false.
Proof.
  intros H0 H1. split.
  - apply Z.eqb_neq. lia.
  - change maxImageSize with 5242880%Z.
    destruct (Z.gtb_spec (Z.of_nat (length img)) 5242880); [lia|reflexivity].
Qed.

Lemma ParseReceipt_backend_failure
      (s : Server) (ctx : context.Context) (req : pb.ParseReceiptRequest)
      (tr tr' : list Event) (raw : bytes) (err : error) (after : context.Ending) :
  length (pb.ImageData req) <> 0%nat ->
  (Z.of_nat (length (pb.ImageData req)) <= 5 * 1024 * 1024)%Z ->
  callModel s (context.WithTimeout ctx timeout) (pb.ImageData req)
            (cmpOr (pb.ContentType req) (B "image/jpeg")) tr
    = (Returns (raw, Some err, after), tr') ->
  ParseReceipt s ctx req tr =
    (Returns (Some (failureResponse err after), None),
     tr' ++ [Log ErrorLevel (B "model call failed") (B "err") (LogErr err)]).
Proof.
  intros H0 H1 Hc. destruct (size_checks_pass _ H0 H1) as [E0 E1].
  unfold ParseReceipt. rewrite E0, E1. unfold Effect.bind at 1. rewrite Hc.
  unfold failureResponse.
  destruct after; reflexivity.
Qed.

(** C2 (as the code has it): when the model call fails, the answer is
    TIMEOUT exactly when the request's context reports
    [DeadlineExceeded], that is when the handler's five-minute timeout
    or the caller's own deadline has passed, and MODEL_ERROR for every
    other failure, a caller's cancellation included. *)
Theorem backend_failure_code
        (s : Server) (ctx : context.Context) (req : pb.ParseReceiptRequest)
        (tr tr' : list Event) (raw : bytes) (err : error) (after : context.Ending) :
  length (pb.ImageData req) <> 0%nat ->
  (Z.of_nat (length (pb.ImageData req)) <= 5 * 1024 * 1024)%Z ->
  callModel s (context.WithTimeout ctx timeout) (pb.ImageData req)
            (cmpOr (pb.ContentType req) (B "image/jpeg")) tr
    = (Returns (raw, Some err, after), tr') ->
  let o := ParseReceipt s ctx req tr in
  (codeOf o = Some pb.OCRErrorCode_OCR_ERROR_TIMEOUT
   <-> context.Err after = Some context.DeadlineExceeded)
  /\ (codeOf o = Some pb.OCRErrorCode_OCR_ERROR_MODEL_ERROR
      <-> context.Err after <> Some context.DeadlineExceeded)
  /\ (after = context.TimeoutPassed \/ after = context.CallerDeadlinePassed ->
      codeOf o = Some pb.OCRErrorCode_OCR_ERROR_TIMEOUT)
  /\ (after = context.CallerCanceled \/ after = context.Open ->
      codeOf o = Some pb.OCRErrorCode_OCR_ERROR_MODEL_ERROR)
  /\ context.Left (context.WithTimeout ctx timeout) <> None
  /\ (forall d, context.Left (context.WithTimeout ctx timeout) = Some d ->
        (d <= 5 * 60 * 1000000000)%Z).
Proof.
  intros H0 H1 Hc o. subst o.
  rewrite (ParseReceipt_backend_failure _ _ _ _ _ _ _ _ H0 H1 Hc).
  unfold codeOf, failureResponse.
  split; [|split; [|split; [|split; [|split]]]].
  - destruct after; simpl; split; congruence.
  - destruct after; simpl; split; congruence.
  - intros [->| ->]; reflexivity.
  - intros [->| ->]; reflexivity.
  - discriminate.
  - intros d. unfold context.WithTimeout; simpl. intros E; injection E as <-.
    change timeout with 300000000000%Z.
    destruct (context.Left ctx); lia.
Qed.

(** The handler's timeout passes while the local backend is at work. *)
Lemma backend_failure_code_witness :
  codeOf (run (ParseReceipt
                 (localServer (ollamaFailing (B "context deadline exceeded")
                                             context.TimeoutPassed))
                 context.Background (requestOf someImage)))
  = Some pb.OCRErrorCode_OCR_ERROR_TIMEOUT.
Proof.
  apply (proj1 (proj2 (proj2
    (backend_failure_code
       (localServer (ollamaFailing (B "context deadline exceeded") context.TimeoutPassed))
       context.Background (requestOf someImage) [] _ _ _ _
       ltac:(discriminate) ltac:(vm_compute; discriminate) eq_refl)))).
  left; reflexivity.
Defined.

(** C2, as stated, fails: the caller cancels while the backend is at
    work, the call fails, and the answer is MODEL_ERROR, not TIMEOUT. *)
Lemma caller_cancellation_is_model_error :
  codeOf (run (ParseReceipt
                 (localServer (ollamaFailing (B "context canceled") context.CallerCanceled))
                 context.Background (requestOf someImage)))
  = Some pb.OCRErrorCode_OCR_ERROR_MODEL_ERROR
  /\ codeOf (run (ParseReceipt
                 (localServer (ollamaFailing (B "context canceled") context.CallerCanceled))
                 context.Background (requestOf someImage)))
     <> Some pb.OCRErrorCode_OCR_ERROR_TIMEOUT.
Proof. split; [reflexivity|discriminate]. Qed.





(** Each of the four kinds, on a run. *)
Example kind_invalid_image :
  codeOf (run (ParseReceipt (localServer (ollamaAnswering (B "{}")))
                            context.Background (requestOf [])))
  = Some pb.OCRErrorCode_OCR_ERROR_INVALID_IMAGE.
Proof. reflexivity. Qed.

Example kind_timeout :
  codeOf (run (ParseReceipt
                 (localServer (ollamaFailing (B "context deadline exceeded")
                                             context.CallerDeadlinePassed))
                 context.Background (requestOf someImage)))
  = Some pb.OCRErrorCode_OCR_ERROR_TIMEOUT.
Proof. reflexivity. Qed.

Example kind_model_error :
  codeOf (run (ParseReceipt
                 (localServer (ollamaFailing (B "connection refused") context.Open))
                 context.Background (requestOf someImage)))
  = Some pb.OCRErrorCode_OCR_ERROR_MODEL_ERROR.
Proof. reflexivity. Qed.

Example kind_parse_failed :
  codeOf (run (ParseReceipt
                 (hostedServer (geminiAnswering (B "Sorry, no receipt here.")))
                 context.Background (requestOf someImage)))
  = Some pb.OCRErrorCode_OCR_ERROR_PARSE_FAILED.
Proof. vm_compute; reflexivity. Qed.

(** A server built without any client panics on a well-sized image. *)
Example no_client_panics :
  fst (run (ParseReceipt (New None None (B "m") stdLogger)
                         context.Background (requestOf someImage)))
  = Panics.
Proof. reflexivity. Qed.

(** C9: under the hosted provider [Health] answers "ok" and probes
    nothing; under the local provider it lists the backend's models
    under a deadline of at most five seconds and answers "unhealthy" if
    that fails, "ok" otherwise.  The model is the configured one. *)
Theorem health_by_provider
        (cfg : config.Config) (logger : Logger)
        (oc : api.Client) (gc : genai.Client)
        (ctx : context.Context) (tr : list Event) :
  let s := main.ocrService cfg logger oc gc in
  let probe := context.WithTimeout ctx (5 * time.Second) in
  if beq (config.Provider cfg) (B "gemini") then
    Health s ctx tr =
      (Returns (Some {| pb.Status := B "ok"; pb.Model := config.GeminiModel cfg |}, None),
       tr)
  else
    (exists d, context.Left probe = Some d /\ (d <= 5 * 1000000000)%Z)
    /\ match api.List oc probe with
       | None =>
           Health s ctx tr =
             (Returns (Some {| pb.Status := B "ok";
                               pb.Model := config.OllamaModel cfg |}, None),
              tr ++ [OllamaList probe])
       | Some err =>
           Health s ctx tr =
             (Returns (Some {| pb.Status := B "unhealthy";
                               pb.Model := config.OllamaModel cfg |}, None),
              (tr ++ [OllamaList probe])
                 ++ [Log WarnLevel (B "ollama health check failed") (B "err") (LogErr err)])
       end.
Proof.
  intros s probe. subst s. unfold main.ocrService.
  destruct (beq (config.Provider cfg) (B "gemini")).
  - reflexivity.
  - split.
    + subst probe. unfold context.WithTimeout; simpl.
      eexists; split; [reflexivity|].
      change (5 * time.Second)%Z with 5000000000%Z.
      destruct (context.Left ctx); lia.
    + run_handler. cbn [New ollama model]. fold probe.
      destruct (api.List oc probe); reflexivity.
Qed.

End Handlers.

(* ------------------------------------------------------------------ *)
(** * The pipeline on the specification's scenarios *)

Section Scenarios.

Import Json server.

Example extract_json_fence :
  extractJSON (wrapJson (J "{'a': 1}")) = J "{'a': 1}".
Proof. vm_compute; reflexivity. Qed.

Example extract_plain_fence_with_spaces :
  extractJSON (wrapPlain (J "  {'a': 1}  ")) = J "{'a': 1}".
Proof. vm_compute; reflexivity. Qed.

Example extract_strips_inner_fence :
  extractJSON (J "Here:  ``` json {'a': '```x'}") = J "Here:  json {'a': 'x'}".
Proof. vm_compute; reflexivity. Qed.

Example regexp_match_lengths :
  map (regexp.matchAt codeBlockRe)
      [ B "```json  {"; B "```js"; B "``json"; fence ++ [LF; TAB] ++ B "x"; B "json" ]
  = [ 9; 3; 0; 5; 0 ]%nat.
Proof. vm_compute; reflexivity. Qed.

Example parse_nested :
  parse (J " {'a': [1, -2.5e3, true, null, {'b': 'xA\n'}]} ")
  = Some (Object [ (B "a", Array [ Number (B "1"); Number (B "-2.5e3"); Bool true; Null;
                                   Object [ (B "b", Str (B "xA" ++ [LF])) ] ]) ]).
Proof. vm_compute; reflexivity. Qed.

Example parse_rejects :
  map parse [ J "{'a': 1,}"; J "[1 2]"; J "012"; J "{} x"; J "nul"; J "'a"; [] ]
  = [ None; None; None; None; None; None; None ].
Proof. vm_compute; reflexivity. Qed.

Example keys_match_without_case :
  parseResponse (J "{'MERCHANT':'Acme','Items':[{'QTY':2,'Unit_Price':1.5}]}")
  = parseResponse (J "{'merchant':'Acme','items':[{'qty':2,'unit_price':1.5}]}").
Proof. vm_compute; reflexivity. Qed.

(** Four terms give the [float32] next but one above that of 0.9. *)
Example score_of_four_terms :
  scoreOf 4 = S754_finite false 15099496 (-24)
  /\ f32 9 10 = S754_finite false 15099494 (-24).
Proof. split; vm_compute; reflexivity. Qed.

(** A fenced reply with merchant, total, one item and a subtotal that
    reconciles: four terms, no date. *)
Example scenario_acme :
  run (ParseReceipt (localServer (ollamaAnswering acmeReply)) context.Background
                    (requestOf someImage))
  = (Returns (Some {| pb.Success := true; pb.Data := Some acmeReceipt; pb.Error := None |},
              None),
     [ OllamaGenerate (context.WithTimeout context.Background timeout)
         {| api.Model := B "qwen2.5vl:3b"; api.Prompt := prompt;
            api.Images := [someImage]; api.Stream := Some false |};
       Log InfoLevel (B "parsed receipt") (B "items") (LogInt 1) ]).
Proof. vm_compute; reflexivity. Qed.

(** The hosted backend is sent the prompt and the image with its type,
    ["image/jpeg"] when the request names none. *)
Example scenario_hosted_request :
  snd (run (ParseReceipt (hostedServer (geminiAnswering acmeReply)) context.Background
                         (requestOf someImage)))
  = [ GeminiGenerateContent (context.WithTimeout context.Background timeout)
        (B "gemini-2.0-flash")
        [ genai.Text prompt; genai.InlineData (B "image/jpeg") someImage ];
      Log InfoLevel (B "parsed receipt") (B "items") (LogInt 1) ].
Proof. vm_compute; reflexivity. Qed.

(** The helper of [cmd/test-cli] turns down what the decoder accepts. *)
Example helper_is_stricter :
  testcli.validateItems 0 (map asCliItem
    [ {| Raw := B "EGGS"; Name := B "Eggs"; Qty := None; UnitPrice := Some (f64 45 10) |};
      {| Raw := B "MILK"; Name := []; Qty := None; UnitPrice := None |} ])
  = Some (B "item[1].name is required").
Proof. vm_compute; reflexivity. Qed.

End Scenarios.
